(** * Revision lifecycle and environment toggling of the feature-flag handler

    A shallow embedding of the in-memory transformations performed by
    [ApproveRevision], [RollbackFeatureFlagVersion] and [ToggleFeatureFlag]
    of package [featureflaghandler], together with the request plumbing
    around them, and the properties of the revision state machine. *)

From Stdlib Require Import ZArith Lia.
From stdpp Require Import base decidable option list strings.

Local Open Scope Z_scope.

(** ** Data model *)

(** [primitive.ObjectID] is a 12-byte array; only equality and the zero
    value [primitive.NilObjectID] are used, so the array is read as the
    number it spells. *)
Definition ObjectID := N.
Bind Scope N_scope with ObjectID.
Definition NilObjectID : ObjectID := 0%N.

(** Modelled from the spec: the declarations of package [featureflagmodel]
    (the revision status constants and the record types) are not among the
    sources; the fields are the ones of the persisted layout of section 6,
    under the names the handler uses. *)
Inductive RevisionStatus := Draft | Live | Archived.

#[global] Instance RevisionStatus_eq_dec : EqDecision RevisionStatus.
Proof. solve_decision. Defined.

(** Modelled from the spec: a rule is a condition and a served value, both
    opaque to the handler. *)
Record Rule := mkRule { Condition : string; Value : string }.

(** Modelled from the spec: [featureflagmodel.Revision]. *)
Record Revision := mkRevision {
  ID : ObjectID;
  UserID : ObjectID;
  Status : RevisionStatus;
  DefaultValue : string;
  Rules : list Rule;
  LastRevisionID : ObjectID
}.

(** Modelled from the spec: [featureflagmodel.FeatureFlagEnvironment]; the
    handler ranges over a slice of them. *)
Record Environment := mkEnvironment {
  Name : string;
  IsEnabled : bool
}.

(** Modelled from the spec: [featureflagmodel.FeatureFlagRecord]; [Version]
    is the spec's integer version counter. *)
Record FeatureFlagRecord := mkFeatureFlagRecord {
  FlagID : ObjectID;
  OrganizationID : ObjectID;
  FlagName : string;
  Version : Z;
  Environments : list Environment;
  Revisions : list Revision
}.

(** Field assignments [x.Status = s], [x.LastRevisionID = i],
    [x.IsEnabled = b], [rec.Version = v], ... *)
Definition setStatus (s : RevisionStatus) (r : Revision) : Revision :=
  mkRevision (ID r) (UserID r) s (DefaultValue r) (Rules r) (LastRevisionID r).

Definition setLastRevisionID (i : ObjectID) (r : Revision) : Revision :=
  mkRevision (ID r) (UserID r) (Status r) (DefaultValue r) (Rules r) i.

Definition setIsEnabled (b : bool) (e : Environment) : Environment :=
  mkEnvironment (Name e) b.

Definition setVersion (v : Z) (f : FeatureFlagRecord) : FeatureFlagRecord :=
  mkFeatureFlagRecord (FlagID f) (OrganizationID f) (FlagName f) v
    (Environments f) (Revisions f).

Definition setRevisions (rs : list Revision) (f : FeatureFlagRecord)
  : FeatureFlagRecord :=
  mkFeatureFlagRecord (FlagID f) (OrganizationID f) (FlagName f) (Version f)
    (Environments f) rs.

Definition setEnvironments (es : list Environment) (f : FeatureFlagRecord)
  : FeatureFlagRecord :=
  mkFeatureFlagRecord (FlagID f) (OrganizationID f) (FlagName f) (Version f)
    es (Revisions f).

(** ** [for index, x := range xs { ... }]

    The range expression is evaluated once, so the loop runs over the
    indices [0 .. len xs - 1] of the slice as it was on entry; at each
    index the loop variable is a copy of the element found in the backing
    array at that moment, and the body may write to the array and to the
    local variables (the second component of the state). *)
Section Range.
Context {A S : Type}.
Variable body : nat → A → list A * S → list A * S.

Definition rangeStep (st : list A * S) (index : nat) : list A * S :=
  match st.1 !! index with
  | Some x => body index x st
  | None => st
  end.

Definition range (xs : list A) (s : S) : list A * S :=
  foldl rangeStep (xs, s) (seq 0 (length xs)).

(** What the loop computes when the body only writes the slot it is
    visiting: the new element and the new local state are functions of
    the element read and of the local state. *)
Variable elem : A → S → A.
Variable next : A → S → S.

Fixpoint scan (s : S) (xs : list A) : list A * S :=
  match xs with
  | [] => ([], s)
  | x :: xs' => let r := scan (next x s) xs' in (elem x s :: r.1, r.2)
  end.
End Range.

(** ** The in-memory transformations *)

(** *** ApproveRevision, the loop over the revisions and the version bump *)
Definition approveBody (revisionID : ObjectID) (index : nat)
    (revision : Revision) (st : list Revision * ObjectID)
  : list Revision * ObjectID :=
  let st1 :=
    if decide (Status revision = Live)
    then (alter (setStatus Archived) index st.1, ID revision)
    else st in
  if decide (ID revision = revisionID ∧ Status revision = Draft)
  then (alter (setLastRevisionID st1.2) index
          (alter (setStatus Live) index st1.1), st1.2)
  else st1.

Definition Approve (revisionID : ObjectID) (f : FeatureFlagRecord)
  : FeatureFlagRecord :=
  let st := range (approveBody revisionID) (Revisions f) NilObjectID in
  setVersion (Version f + 1) (setRevisions st.1 f).

(** *** RollbackFeatureFlagVersion, its two loops and the version drop *)
Definition rollbackBody (index : nat) (revision : Revision)
    (st : list Revision * ObjectID) : list Revision * ObjectID :=
  if decide (Status revision = Live)
  then (alter (setLastRevisionID NilObjectID) index
          (alter (setStatus Draft) index st.1), LastRevisionID revision)
  else st.

Definition restoreBody (newRevisionID : ObjectID) (index : nat)
    (revision : Revision) (st : list Revision * unit) : list Revision * unit :=
  if decide (ID revision = newRevisionID ∧ Status revision = Archived)
  then (alter (setStatus Live) index st.1, st.2)
  else st.

Definition Rollback (f : FeatureFlagRecord) : FeatureFlagRecord :=
  let st := range rollbackBody (Revisions f) NilObjectID in
  let st' := range (restoreBody st.2) st.1 () in
  setVersion (Version f - 1) (setRevisions st'.1 f).

(** *** ToggleFeatureFlag, the loop over the environments *)
Definition toggleBody (environmentName : string) (index : nat)
    (environment : Environment) (st : list Environment * unit)
  : list Environment * unit :=
  if decide (Name environment = environmentName)
  then (alter (λ e, setIsEnabled (negb (IsEnabled e)) e) index st.1, st.2)
  else st.

Definition Toggle (environmentName : string) (f : FeatureFlagRecord)
  : FeatureFlagRecord :=
  setEnvironments (range (toggleBody environmentName) (Environments f) ()).1 f.

(** *** PatchFeatureFlag, the [$push] of a new revision

    The revision comes from [featureflagmodel.NewRevisionRecord], which
    gives it a fresh [primitive.NewObjectID()]; this is the only place
    where a revision enters an existing flag. *)
Definition PushRevision (revision : Revision) (f : FeatureFlagRecord)
  : FeatureFlagRecord :=
  setRevisions (Revisions f ++ [revision]) f.

(** ** The handlers *)

(** Modelled from the spec: the error messages of package [api_errors] that
    the handlers pass to [CustomError] (the package is not among the
    sources). *)
Inductive ApiError :=
  | BadRequestError
  | InternalServerError
  | ForbiddenError
  | UnauthorizedError.

Definition StatusOK : Z := 200.
Definition StatusBadRequest : Z := 400.
Definition StatusUnauthorized : Z := 401.
Definition StatusForbidden : Z := 403.
Definition StatusInternalServerError : Z := 500.

(** What a handler sends back: [c.JSON(code, record)] or
    [api_errors.CustomError(c, code, message)]. *)
Inductive Response :=
  | JSON (code : Z) (body : FeatureFlagRecord)
  | CustomError (code : Z) (message : ApiError).

(** The [$set] document handed to [model.UpdateOne]. *)
Inductive SetField :=
  | SetVersion (v : Z)
  | SetRevisions (rs : list Revision)
  | SetEnvironments (es : list Environment).

Definition applySet (f : FeatureFlagRecord) (u : SetField) : FeatureFlagRecord :=
  match u with
  | SetVersion v => setVersion v f
  | SetRevisions rs => setRevisions rs f
  | SetEnvironments es => setEnvironments es f
  end.

(** What the collaborators answer during one request; [None] and [false]
    stand for a returned error. *)
Record Outcomes := mkOutcomes {
  userFromContext : option ObjectID;
  organizationFromContext : option ObjectID;
  organizationFound : bool;
  permission : bool;
  featureFlagIDParam : option ObjectID;
  featureFlagFound : option FeatureFlagRecord;
  updateOne : bool;
  timelineUpdateOne : bool
}.

(** The outcome of a request: the response and the update that reached the
    feature-flag collection, if any. *)
Record Result := mkResult {
  response : Response;
  written : option (list SetField)
}.

Definition reject (code : Z) (message : ApiError) : Result :=
  mkResult (CustomError code message) None.

Notation "'let?' x := e 'else' r 'in' k" :=
  (match e with Some x => k | None => r end)
  (at level 10, x name, e at level 200, r at level 200, k at level 200).
Notation "'ensure' b 'else' r 'in' k" :=
  (if b : bool then k else r)
  (at level 10, b at level 200, r at level 200, k at level 200).

(** The part every handler below starts with; the status and message of a
    refused permission differ from handler to handler. *)
Definition authorize (o : Outcomes) (denied : Result)
    (k : ObjectID → Result) : Result :=
  let? userID := userFromContext o
    else reject StatusBadRequest BadRequestError in
  let? organizationID := organizationFromContext o
    else reject StatusBadRequest BadRequestError in
  ensure organizationFound o
    else reject StatusInternalServerError InternalServerError in
  ensure permission o else denied in
  let? featureFlagID := featureFlagIDParam o
    else reject StatusBadRequest BadRequestError in
  k featureFlagID.

(** The tail every handler below ends with: write, log to the timeline,
    answer with the record. *)
Definition persist (o : Outcomes) (newValues : list SetField)
    (featureFlagRecord : FeatureFlagRecord) : Result :=
  ensure updateOne o
    else reject StatusInternalServerError InternalServerError in
  ensure timelineUpdateOne o
    else mkResult (CustomError StatusInternalServerError InternalServerError)
           (Some newValues) in
  mkResult (JSON StatusOK featureFlagRecord) (Some newValues).

Definition ApproveRevision (o : Outcomes) (revisionIDParam : option ObjectID)
  : Result :=
  authorize o (reject StatusUnauthorized UnauthorizedError) (λ featureFlagID,
    let? revisionID := revisionIDParam
      else reject StatusBadRequest BadRequestError in
    let? featureFlagRecord := featureFlagFound o
      else reject StatusInternalServerError InternalServerError in
    let featureFlagRecord := Approve revisionID featureFlagRecord in
    persist o [SetVersion (Version featureFlagRecord);
               SetRevisions (Revisions featureFlagRecord)] featureFlagRecord).

Definition RollbackFeatureFlagVersion (o : Outcomes) : Result :=
  authorize o (reject StatusForbidden ForbiddenError) (λ featureFlagID,
    let? featureFlagRecord := featureFlagFound o
      else reject StatusInternalServerError InternalServerError in
    let featureFlagRecord := Rollback featureFlagRecord in
    persist o [SetVersion (Version featureFlagRecord);
               SetRevisions (Revisions featureFlagRecord)] featureFlagRecord).

Definition ToggleFeatureFlag (o : Outcomes) (env : string) : Result :=
  authorize o (reject StatusForbidden ForbiddenError) (λ featureFlagID,
    let? featureFlagRecord := featureFlagFound o
      else reject StatusInternalServerError InternalServerError in
    let featureFlagRecord := Toggle env featureFlagRecord in
    persist o [SetEnvironments (Environments featureFlagRecord)]
      featureFlagRecord).

(** The document in the collection once the request is over. *)
Definition stored (f : FeatureFlagRecord) (r : Result) : FeatureFlagRecord :=
  match written r with
  | Some newValues => foldl applySet f newValues
  | None => f
  end.

(** Every collaborator answers, and the flag [f] is the one found. *)
Definition served (o : Outcomes) (f : FeatureFlagRecord) : Prop :=
  is_Some (userFromContext o) ∧ is_Some (organizationFromContext o) ∧
  organizationFound o = true ∧ permission o = true ∧
  is_Some (featureFlagIDParam o) ∧ featureFlagFound o = Some f ∧
  updateOne o = true ∧ timelineUpdateOne o = true.

(** A request fails with [message] when the handler answers through
    [CustomError] with that message. *)
Definition failsWith (message : ApiError) (r : Result) : Prop :=
  ∃ code, response r = CustomError code message.

Definition fails (r : Result) : Prop := ∃ message, failsWith message r.

(** ** Vocabulary of the properties *)

Definition liveCount (rs : list Revision) : nat :=
  length (filter (λ r, Status r = Live) rs).

Definition atMostOneLive (f : FeatureFlagRecord) : Prop :=
  (liveCount (Revisions f) ≤ 1)%nat.

(** Revisions are identified by their id: every revision of a flag gets
    its own [primitive.NewObjectID()] when it is created, and both loops
    find "the" revision they are after by comparing ids. *)
Definition distinctIDs (f : FeatureFlagRecord) : Prop :=
  NoDup (ID <$> Revisions f).

Inductive Operation :=
  | DoApprove (revisionID : ObjectID)
  | DoRollback.

Definition perform (f : FeatureFlagRecord) (op : Operation) : FeatureFlagRecord :=
  match op with
  | DoApprove revisionID => Approve revisionID f
  | DoRollback => Rollback f
  end.

Definition performAll (ops : list Operation) (f : FeatureFlagRecord)
  : FeatureFlagRecord :=
  foldl perform f ops.

(** The element written and the local variable carried by each loop. *)
Definition liveNext (link : Revision → ObjectID) (revision : Revision)
    (s : ObjectID) : ObjectID :=
  if decide (Status revision = Live) then link revision else s.

Definition approveElem (revisionID : ObjectID) (revision : Revision)
    (lastRevisionID : ObjectID) : Revision :=
  if decide (Status revision = Live) then setStatus Archived revision
  else if decide (ID revision = revisionID ∧ Status revision = Draft)
  then setLastRevisionID lastRevisionID (setStatus Live revision)
  else revision.

Definition rollbackElem (revision : Revision) : Revision :=
  if decide (Status revision = Live)
  then setLastRevisionID NilObjectID (setStatus Draft revision)
  else revision.

Definition restoreElem (newRevisionID : ObjectID) (revision : Revision)
  : Revision :=
  if decide (ID revision = newRevisionID ∧ Status revision = Archived)
  then setStatus Live revision
  else revision.

Definition archiveElem (revision : Revision) : Revision :=
  if decide (Status revision = Live) then setStatus Archived revision
  else revision.

Definition toggleElem (environmentName : string) (environment : Environment)
  : Environment :=
  if decide (Name environment = environmentName)
  then setIsEnabled (negb (IsEnabled environment)) environment
  else environment.

(** The value of the loop variable [lastRevisionID] / [newRevisionID] after
    the revisions [rs] have been visited. *)
Definition carried (link : Revision → ObjectID) (s : ObjectID)
    (rs : list Revision) : ObjectID :=
  foldl (λ s revision, liveNext link revision s) s rs.

(** The only Live revision of [rs] is [L], at index [i]. *)
Definition onlyLiveAt (rs : list Revision) (i : nat) (L : Revision) : Prop :=
  rs !! i = Some L ∧ Status L = Live ∧
  ∀ k r, rs !! k = Some r → Status r = Live → k = i.

(** ** Sample data

    The flag of the scenarios of section 8, and collaborators that all
    answer. *)
Module Sample.
Definition revision (i : ObjectID) (s : RevisionStatus) (l : ObjectID)
  : Revision :=
  mkRevision i 9%N s "on" [] l.

Definition flag (v : Z) (rs : list Revision) : FeatureFlagRecord :=
  mkFeatureFlagRecord 100%N 200%N "dark-mode" v
    [mkEnvironment "prod" false; mkEnvironment "staging" true] rs.

Definition answers (f : FeatureFlagRecord) : Outcomes :=
  mkOutcomes (Some 9%N) (Some 200%N) true true (Some 100%N) (Some f)
    true true.
End Sample.

(** ** Further vocabulary *)

(** What a revision carries besides its status and its link. *)
Definition payload (r : Revision) : ObjectID * ObjectID * string * list Rule :=
  (ID r, UserID r, DefaultValue r, Rules r).

(** Approvals minus rollbacks. *)
Definition netApprovals (ops : list Operation) : Z :=
  foldr (λ op z, match op with DoApprove _ => z + 1 | DoRollback => z - 1 end)
    0 ops.

Definition draftsUnlinked (f : FeatureFlagRecord) : Prop :=
  Forall (λ r, Status r = Draft → LastRevisionID r = NilObjectID) (Revisions f).

(** Every link is nil or the id of a revision of the flag. *)
Definition linksResolve (f : FeatureFlagRecord) : Prop :=
  Forall (λ r, LastRevisionID r = NilObjectID ∨
               LastRevisionID r ∈ ID <$> Revisions f) (Revisions f).

(** The flags the handlers can produce from a new flag: [PatchFeatureFlag]
    pushes a revision that has a fresh id and is not Live, [ApproveRevision]
    and [RollbackFeatureFlagVersion] transform the revisions. *)
Inductive reachable : FeatureFlagRecord → Prop :=
  | reachable_created f :
      (length (Revisions f) ≤ 1)%nat → reachable f
  | reachable_patched f revision :
      reachable f → ID revision ∉ ID <$> Revisions f →
      Status revision ≠ Live → reachable (PushRevision revision f)
  | reachable_approved f revisionID :
      reachable f → reachable (Approve revisionID f)
  | reachable_rolled_back f :
      reachable f → reachable (Rollback f).

(** ** The other handlers of the package *)

Definition StatusCreated : Z := 201.
Definition StatusNoContent : Z := 204.
Definition StatusNotFound : Z := 404.

(** [c.JSON(code, body)] or [api_errors.CustomError(c, code, message)] for
    a handler that answers with a [B]. *)
Inductive Answer (B : Type) :=
  | Sent (code : Z) (body : B)
  | Refused (code : Z) (message : ApiError).
Arguments Sent {B} code body.
Arguments Refused {B} code message.

(** The actions of package [timelinemodel] the handlers record. *)
Inductive TimelineAction :=
  | Created
  | RevisionCreated
  | FeatureFlagDeleted.

(** What reaches the database during one request, in order. *)
Inductive Effect :=
  | FlagInserted (featureFlagRecord : FeatureFlagRecord)
  | TimelineInserted (featureFlagID : ObjectID)
  | TimelineAppended (featureFlagID userID : ObjectID) (action : TimelineAction)
  | RevisionPushed (featureFlagID : ObjectID) (revision : Revision)
  | DeletedAtSet (featureFlagID : ObjectID) (now : Z).

Record PostFeatureFlagRequest := mkPostFeatureFlagRequest {
  reqName : string;
  reqType : string;
  reqDefaultValue : string;
  reqRules : list Rule;
  reqEnvironment : string
}.

Record PatchFeatureFlagRequest := mkPatchFeatureFlagRequest {
  patchDefaultValue : string;
  patchRules : list Rule
}.

(** The validator tag [required] on a string field: not the zero value. *)
Definition required (s : string) : bool := negb (String.eqb s EmptyString).

(** The validator tag [oneof=boolean json string number]. *)
Definition oneofFlagType (s : string) : bool :=
  bool_decide (s ∈ ["boolean"; "json"; "string"; "number"]).

Section Constructors.
(** The constructors of package [featureflagmodel] and what the validator
    makes of one rule (the tags of [featureflagmodel.Rule]) are not among
    the sources: the handlers are parameterised by them. *)
Variable NewFeatureFlagRecord :
  string → string → string → list Rule → ObjectID → ObjectID → string →
  FeatureFlagRecord.
Variable NewRevisionRecord : string → list Rule → ObjectID → Revision.
Variable ruleValid : Rule → bool.

(** [validate.Struct(request)] under the tags of [PostFeatureFlagRequest]. *)
Definition validatePost (request : PostFeatureFlagRequest) : bool :=
  required (reqName request) &&
  (required (reqType request) && oneofFlagType (reqType request)) &&
  required (reqDefaultValue request) &&
  forallb ruleValid (reqRules request) &&
  required (reqEnvironment request).

Definition PostFeatureFlag (o : Outcomes)
    (bound : option PostFeatureFlagRequest) (insertOne : option ObjectID)
    (timelineInsertOne : bool) : list Effect * Answer FeatureFlagRecord :=
  let? userID := userFromContext o
    else ([], Refused StatusBadRequest BadRequestError) in
  let? organizationID := organizationFromContext o
    else ([], Refused StatusBadRequest BadRequestError) in
  ensure organizationFound o
    else ([], Refused StatusInternalServerError InternalServerError) in
  ensure permission o else ([], Refused StatusForbidden ForbiddenError) in
  let? request := bound
    else ([], Refused StatusBadRequest BadRequestError) in
  ensure validatePost request
    else ([], Refused StatusBadRequest BadRequestError) in
  let featureFlagRecord :=
    NewFeatureFlagRecord (reqName request) (reqDefaultValue request)
      (reqType request) (reqRules request) organizationID userID
      (reqEnvironment request) in
  let? featureFlagID := insertOne
    else ([], Refused StatusInternalServerError InternalServerError) in
  ensure timelineInsertOne
    else ([FlagInserted featureFlagRecord],
          Refused StatusBadRequest BadRequestError) in
  ensure timelineUpdateOne o
    else ([FlagInserted featureFlagRecord; TimelineInserted featureFlagID],
          Refused StatusInternalServerError InternalServerError) in
  ([FlagInserted featureFlagRecord; TimelineInserted featureFlagID;
    TimelineAppended featureFlagID userID Created],
   Sent StatusCreated featureFlagRecord).

Definition PatchFeatureFlag (o : Outcomes)
    (bound : option PatchFeatureFlagRequest) : list Effect * Answer Revision :=
  let? userID := userFromContext o
    else ([], Refused StatusBadRequest BadRequestError) in
  let? organizationID := organizationFromContext o
    else ([], Refused StatusBadRequest BadRequestError) in
  ensure organizationFound o
    else ([], Refused StatusInternalServerError InternalServerError) in
  ensure permission o else ([], Refused StatusForbidden ForbiddenError) in
  let? featureFlagID := featureFlagIDParam o
    else ([], Refused StatusBadRequest BadRequestError) in
  let? request := bound
    else ([], Refused StatusBadRequest BadRequestError) in
  let revision :=
    NewRevisionRecord (patchDefaultValue request) (patchRules request) userID in
  ensure updateOne o
    else ([], Refused StatusInternalServerError InternalServerError) in
  ensure timelineUpdateOne o
    else ([RevisionPushed featureFlagID revision],
          Refused StatusInternalServerError InternalServerError) in
  ([RevisionPushed featureFlagID revision;
    TimelineAppended featureFlagID userID RevisionCreated],
   Sent StatusOK revision).
End Constructors.

(** [now] is [time.Now().UTC()]; the answer is [c.JSON(204, nil)]. *)
Definition DeleteFeatureFlag (o : Outcomes) (now : Z)
  : list Effect * Answer unit :=
  let? userID := userFromContext o
    else ([], Refused StatusBadRequest BadRequestError) in
  let? organizationID := organizationFromContext o
    else ([], Refused StatusBadRequest BadRequestError) in
  ensure organizationFound o
    else ([], Refused StatusInternalServerError InternalServerError) in
  ensure permission o else ([], Refused StatusForbidden ForbiddenError) in
  let? featureFlagID := featureFlagIDParam o
    else ([], Refused StatusBadRequest BadRequestError) in
  ensure updateOne o
    else ([], Refused StatusInternalServerError InternalServerError) in
  ensure timelineUpdateOne o
    else ([DeletedAtSet featureFlagID now],
          Refused StatusInternalServerError InternalServerError) in
  ([DeletedAtSet featureFlagID now;
    TimelineAppended featureFlagID userID FeatureFlagDeleted],
   Sent StatusNoContent ()).

(** The document in the collection after [PatchFeatureFlag]'s effects. *)
Definition applyEffect (f : FeatureFlagRecord) (e : Effect) : FeatureFlagRecord :=
  match e with
  | RevisionPushed _ revision => PushRevision revision f
  | _ => f
  end.

(** *** UserHandler.PatchUser *)

Record UserPatchRequest := mkUserPatchRequest {
  patchFirstName : string;
  patchLastName : string
}.

(** The fields of [models.UserRecord] that the handler and its tests use
    (the declaration is not among the sources). *)
Record UserRecord := mkUserRecord {
  Email : string;
  Password : string;
  FirstName : string;
  LastName : string
}.

Record UserPatchResponse := mkUserPatchResponse {
  respID : ObjectID;
  respEmail : string;
  respFirstName : string;
  respLastName : string
}.

(** The error of [api_utils.GetUserFromContext]: the handler tells
    [ErrNotAuthenticated] from every other one. *)
Inductive ContextError := ErrNotAuthenticated | OtherContextError.

Inductive UserMessage :=
  | Common (message : ApiError)
  | NotFoundError.

Inductive UserAnswer :=
  | UserSent (code : Z) (body : UserPatchResponse)
  | UserRefused (code : Z) (message : UserMessage).

(** The update document: the keys [first_name] and [last_name]. *)
Record UserUpdate := mkUserUpdate {
  updUserID : ObjectID;
  updFirstName : string;
  updLastName : string
}.

Definition validateUserPatch (request : UserPatchRequest) : bool :=
  required (patchFirstName request) && required (patchLastName request).

Definition PatchUser (bound : option UserPatchRequest)
    (user : ContextError + ObjectID) (found : option UserRecord)
    (updated : option ObjectID) : option UserUpdate * UserAnswer :=
  let? request := bound
    else (None, UserRefused StatusBadRequest (Common BadRequestError)) in
  ensure validateUserPatch request
    else (None, UserRefused StatusBadRequest (Common BadRequestError)) in
  match user with
  | inl ErrNotAuthenticated =>
      (None, UserRefused StatusUnauthorized (Common UnauthorizedError))
  | inl OtherContextError =>
      (None, UserRefused StatusInternalServerError (Common InternalServerError))
  | inr userID =>
      let? ur := found
        else (None, UserRefused StatusNotFound NotFoundError) in
      let? objectID := updated
        else (None, UserRefused StatusInternalServerError
                      (Common InternalServerError)) in
      (Some (mkUserUpdate userID (patchFirstName request)
               (patchLastName request)),
       UserSent StatusOK
         (mkUserPatchResponse objectID (Email ur) (patchFirstName request)
            (patchLastName request)))
  end.

Definition applyUserUpdate (u : UserRecord) (w : option UserUpdate) : UserRecord :=
  match w with
  | Some upd => mkUserRecord (Email u) (Password u) (updFirstName upd)
                  (updLastName upd)
  | None => u
  end.

(** ** Facts about range loops *)
Section RangeFacts.
Context {A S : Type}.
Variable body : nat → A → list A * S → list A * S.
Variable elem : A → S → A.
Variable next : A → S → S.

Hypothesis body_local : ∀ index x l s,
  l !! index = Some x →
  body index x (l, s) = (<[index := elem x s]> l, next x s).

Lemma range_from (done todo : list A) (s : S) :
  foldl (rangeStep body) (done ++ todo, s) (seq (length done) (length todo))
  = (done ++ (scan elem next s todo).1, (scan elem next s todo).2).
Proof.
  revert done s. induction todo as [|x todo IH]; intros done s; simpl.
  - by rewrite app_nil_r.
  - unfold rangeStep at 2. simpl.
    rewrite list_lookup_middle by done.
    rewrite body_local by (by apply list_lookup_middle).
    replace (<[length done := elem x s]> (done ++ x :: todo))
      with ((done ++ [elem x s]) ++ todo).
    + replace (Datatypes.S (length done)) with (length (done ++ [elem x s]))
        by (rewrite length_app; simpl; lia).
      rewrite IH. by rewrite <- app_assoc.
    + rewrite <- app_assoc. simpl.
      replace (length done) with (length done + 0)%nat at 1 by lia.
      by rewrite insert_app_r.
Qed.

Lemma range_scan (xs : list A) (s : S) :
  range body xs s = scan elem next s xs.
Proof.
  unfold range. pose proof (range_from [] xs s) as H. simpl in H.
  rewrite H. by destruct (scan elem next s xs).
Qed.
End RangeFacts.

Section ScanFacts.
Context {A S : Type}.
Variable elem : A → S → A.
Variable next : A → S → S.

Lemma scan_state (s : S) (xs : list A) :
  (scan elem next s xs).2 = foldl (λ s x, next x s) s xs.
Proof. revert s. induction xs; intros; simpl; auto. Qed.

Lemma scan_length (s : S) (xs : list A) :
  length (scan elem next s xs).1 = length xs.
Proof. revert s. induction xs; intros; simpl; auto. Qed.

(** The element written at index [k] is computed from the element read
    there and from the local state left by the [k] earlier iterations. *)
Lemma scan_lookup (s : S) (xs : list A) (k : nat) :
  (scan elem next s xs).1 !! k
  = (λ x, elem x (foldl (λ s x, next x s) s (take k xs))) <$> xs !! k.
Proof.
  revert s k. induction xs as [|x xs IH]; intros s k; simpl.
  - by destruct k.
  - destruct k as [|k]; simpl; [done|]. by rewrite IH.
Qed.

Lemma scan_Forall (P : A → Prop) (s : S) (xs : list A) :
  (∀ x s, P (elem x s)) → Forall P (scan elem next s xs).1.
Proof.
  intros HP. revert s. induction xs; intros s; simpl; constructor; auto.
Qed.

Lemma scan_fmap_key {K} (key : A → K) (s : S) (xs : list A) :
  (∀ x s, key (elem x s) = key x) →
  key <$> (scan elem next s xs).1 = key <$> xs.
Proof.
  intros Hk. revert s. induction xs as [|x xs IH]; intros s; simpl; [done|].
  by rewrite Hk, IH.
Qed.

Lemma scan_stateless (f : A → A) (s : S) (xs : list A) :
  (∀ x s, elem x s = f x) → (scan elem next s xs).1 = f <$> xs.
Proof.
  intros Hf. revert s. induction xs as [|x xs IH]; intros s; simpl; [done|].
  by rewrite Hf, IH.
Qed.
End ScanFacts.

Lemma alter_lookup_insert {A} (f : A → A) (l : list A) (i : nat) (x : A) :
  l !! i = Some x → alter f i l = <[i := f x]> l.
Proof.
  revert i. induction l as [|y l IH]; intros [|i] H; simplify_eq/=; [done|].
  f_equal. by apply IH.
Qed.

(** ** The loop bodies write only the slot they visit *)

Lemma approveBody_local revisionID index x l s :
  l !! index = Some x →
  approveBody revisionID index x (l, s)
  = (<[index := approveElem revisionID x s]> l, liveNext ID x s).
Proof.
  intros H. unfold approveBody, approveElem, liveNext. simpl.
  destruct (decide (Status x = Live)) as [HL|HL]; simpl.
  - rewrite decide_False by (intros [_ HD]; congruence).
    by rewrite (alter_lookup_insert _ _ _ _ H).
  - destruct (decide (ID x = revisionID ∧ Status x = Draft)); simpl.
    + rewrite list_alter_alter_eq. by rewrite (alter_lookup_insert _ _ _ _ H).
    + by rewrite list_insert_id.
Qed.

Lemma rollbackBody_local index x l s :
  l !! index = Some x →
  rollbackBody index x (l, s)
  = (<[index := rollbackElem x]> l, liveNext LastRevisionID x s).
Proof.
  intros H. unfold rollbackBody, rollbackElem, liveNext. simpl.
  destruct (decide (Status x = Live)); simpl.
  - rewrite list_alter_alter_eq. by rewrite (alter_lookup_insert _ _ _ _ H).
  - by rewrite list_insert_id.
Qed.

Lemma restoreBody_local newRevisionID index x l (s : unit) :
  l !! index = Some x →
  restoreBody newRevisionID index x (l, s)
  = (<[index := restoreElem newRevisionID x]> l, s).
Proof.
  intros H. unfold restoreBody, restoreElem. simpl.
  destruct (decide (ID x = newRevisionID ∧ Status x = Archived)); simpl.
  - by rewrite (alter_lookup_insert _ _ _ _ H).
  - by rewrite list_insert_id.
Qed.

Lemma toggleBody_local environmentName index x l (s : unit) :
  l !! index = Some x →
  toggleBody environmentName index x (l, s)
  = (<[index := toggleElem environmentName x]> l, s).
Proof.
  intros H. unfold toggleBody, toggleElem. simpl.
  destruct (decide (Name x = environmentName)); simpl.
  - by rewrite (alter_lookup_insert _ _ _ _ H).
  - by rewrite list_insert_id.
Qed.

(** ** Closed forms of the three transformations *)

Lemma Approve_Revisions revisionID f :
  Revisions (Approve revisionID f)
  = (scan (approveElem revisionID) (liveNext ID) NilObjectID (Revisions f)).1.
Proof.
  unfold Approve. simpl.
  by rewrite (range_scan _ _ _ (approveBody_local revisionID)).
Qed.

Lemma Approve_lookup revisionID f k :
  Revisions (Approve revisionID f) !! k
  = (λ x, approveElem revisionID x
            (carried ID NilObjectID (take k (Revisions f))))
    <$> Revisions f !! k.
Proof. rewrite Approve_Revisions. apply scan_lookup. Qed.

Lemma Rollback_Revisions f :
  Revisions (Rollback f)
  = restoreElem (carried LastRevisionID NilObjectID (Revisions f))
    <$> (rollbackElem <$> Revisions f).
Proof.
  unfold Rollback. simpl.
  rewrite (range_scan _ (λ x _, rollbackElem x) _ rollbackBody_local).
  rewrite (range_scan _ (λ x _, restoreElem _ x) (λ _ s, s)
             (restoreBody_local _)).
  rewrite scan_state.
  rewrite (scan_stateless _ _ (restoreElem _)) by done.
  by rewrite (scan_stateless _ _ rollbackElem) by done.
Qed.

Lemma Toggle_Environments environmentName f :
  Environments (Toggle environmentName f)
  = toggleElem environmentName <$> Environments f.
Proof.
  unfold Toggle. simpl.
  rewrite (range_scan _ (λ x _, toggleElem _ x) (λ _ s, s)
             (toggleBody_local _)).
  by rewrite (scan_stateless _ _ (toggleElem _)) by done.
Qed.

Lemma Approve_Version revisionID f :
  Version (Approve revisionID f) = Version f + 1.
Proof. reflexivity. Qed.

Lemma Rollback_Version f : Version (Rollback f) = Version f - 1.
Proof. reflexivity. Qed.

(** ** The loop variable under the single-Live discipline *)

Lemma carried_none link s rs :
  Forall (λ r, Status r ≠ Live) rs → carried link s rs = s.
Proof.
  induction 1 as [|r rs Hr _ IH]; simpl; [done|].
  unfold carried in *. simpl. unfold liveNext at 2.
  by rewrite decide_False.
Qed.

Lemma onlyLiveAt_before rs i L k :
  onlyLiveAt rs i L → (k ≤ i)%nat → Forall (λ r, Status r ≠ Live) (take k rs).
Proof.
  intros (_ & _ & Hu) Hk. apply Forall_lookup. intros j r Hj HL.
  apply lookup_take_Some in Hj as [Hj ?]. specialize (Hu j r Hj HL). lia.
Qed.

Lemma onlyLiveAt_after rs i L :
  onlyLiveAt rs i L → Forall (λ r, Status r ≠ Live) (drop (Datatypes.S i) rs).
Proof.
  intros (_ & _ & Hu). apply Forall_lookup. intros j r Hj HL.
  rewrite lookup_drop in Hj. specialize (Hu _ r Hj HL). lia.
Qed.

Lemma onlyLiveAt_take rs i L k :
  onlyLiveAt rs i L → (i < k)%nat → onlyLiveAt (take k rs) i L.
Proof.
  intros (Hi & HL & Hu) Hk. split; [|split]; [|done|].
  - by rewrite lookup_take_lt.
  - intros j r Hj. apply lookup_take_Some in Hj as [Hj _]. eauto.
Qed.

Lemma onlyLiveAt_carried link s rs i L :
  onlyLiveAt rs i L → carried link s rs = link L.
Proof.
  intros H. pose proof H as (Hi & HL & _).
  rewrite <- (take_drop_middle rs i L Hi). unfold carried.
  rewrite foldl_app. simpl. unfold liveNext at 2. rewrite decide_True by done.
  apply (carried_none link), (onlyLiveAt_after _ _ _ H).
Qed.

Lemma onlyLiveAt_carried_take link s rs i L k :
  onlyLiveAt rs i L →
  carried link s (take k rs) = if decide (i < k)%nat then link L else s.
Proof.
  intros H. destruct (decide (i < k)%nat).
  - by apply (onlyLiveAt_carried _ _ _ i), onlyLiveAt_take.
  - apply carried_none, (onlyLiveAt_before _ _ _ _ H). lia.
Qed.

Lemma onlyLiveAt_other rs i L k r :
  onlyLiveAt rs i L → rs !! k = Some r → k ≠ i → Status r ≠ Live.
Proof. intros (_ & _ & Hu) Hk Hne HL. by apply Hne, (Hu k r). Qed.

Lemma distinct_lookup (rs : list Revision) i j x y :
  NoDup (ID <$> rs) → rs !! i = Some x → rs !! j = Some y → ID x = ID y →
  i = j.
Proof.
  intros Hnd Hi Hj Heq. apply (NoDup_lookup _ i j (ID x) Hnd).
  - by rewrite list_lookup_fmap, Hi.
  - by rewrite list_lookup_fmap, Hj, Heq.
Qed.

(** ** Counting Live revisions *)

Lemma liveCount_none rs :
  Forall (λ r, Status r ≠ Live) rs → liveCount rs = 0%nat.
Proof.
  unfold liveCount. induction 1 as [|r rs Hr _ IH]; [done|].
  by rewrite filter_cons_False.
Qed.

Lemma liveCount_named rs k :
  NoDup (ID <$> rs) → Forall (λ r, Status r = Live → ID r = k) rs →
  (liveCount rs ≤ 1)%nat.
Proof.
  induction rs as [|r rs IH]; intros Hnd Hall; [unfold liveCount; simpl; lia|].
  apply NoDup_cons in Hnd as [Hr Hnd]. apply Forall_cons in Hall as [Hk Hall].
  unfold liveCount in *. destruct (decide (Status r = Live)) as [HL|HL].
  - rewrite filter_cons_True by done. simpl.
    fold (liveCount rs). rewrite liveCount_none; [lia|].
    apply Forall_forall. intros r' Hin HL'.
    apply Hr. rewrite (Hk HL).
    rewrite <- (proj1 (Forall_forall _ _) Hall r' Hin HL').
    by apply list_elem_of_fmap_2.
  - rewrite filter_cons_False by done. by apply IH.
Qed.

Lemma Approve_IDs revisionID f :
  ID <$> Revisions (Approve revisionID f) = ID <$> Revisions f.
Proof.
  rewrite Approve_Revisions. apply scan_fmap_key. intros x s.
  unfold approveElem. by repeat case_decide.
Qed.

Lemma Rollback_IDs f : ID <$> Revisions (Rollback f) = ID <$> Revisions f.
Proof.
  rewrite Rollback_Revisions, <- !list_fmap_compose.
  apply list_fmap_ext. intros _ x _. simpl.
  unfold restoreElem, rollbackElem. by repeat case_decide.
Qed.

Lemma Approve_live_named revisionID f :
  Forall (λ r, Status r = Live → ID r = revisionID)
    (Revisions (Approve revisionID f)).
Proof.
  rewrite Approve_Revisions. apply scan_Forall. intros x s.
  unfold approveElem. repeat case_decide; simpl; intros; try done.
  tauto.
Qed.

Lemma Rollback_live_named f :
  Forall (λ r, Status r = Live →
               ID r = carried LastRevisionID NilObjectID (Revisions f))
    (Revisions (Rollback f)).
Proof.
  rewrite Rollback_Revisions. apply Forall_fmap, Forall_fmap, Forall_forall.
  intros x _. simpl. unfold restoreElem, rollbackElem.
  repeat case_decide; simpl in *; intros; try done; tauto.
Qed.

Lemma perform_distinctIDs f op : distinctIDs f → distinctIDs (perform f op).
Proof.
  unfold distinctIDs. destruct op; unfold perform.
  - by rewrite Approve_IDs.
  - by rewrite Rollback_IDs.
Qed.

Lemma PushRevision_distinctIDs revision f :
  distinctIDs f → ID revision ∉ ID <$> Revisions f →
  distinctIDs (PushRevision revision f).
Proof.
  unfold distinctIDs, PushRevision. simpl. intros Hd Hfresh.
  rewrite fmap_app. apply NoDup_app. split; [done|]. split.
  - intros x Hx Hin. apply list_elem_of_singleton in Hin. by subst.
  - apply NoDup_singleton.
Qed.

Lemma perform_atMostOneLive f op :
  distinctIDs f → atMostOneLive (perform f op).
Proof.
  intros Hd. destruct op as [revisionID|]; unfold perform.
  - apply (liveCount_named _ revisionID); [|apply Approve_live_named].
    by rewrite Approve_IDs.
  - eapply liveCount_named; [|apply Rollback_live_named].
    by rewrite Rollback_IDs.
Qed.

(** ** Updating one slot *)

Lemma fmap_one_slot {A} (g : A → A) (l : list A) (i : nat) (x : A) :
  l !! i = Some x → (∀ k y, l !! k = Some y → k ≠ i → g y = y) →
  g <$> l = <[i := g x]> l.
Proof.
  intros Hi Hg. apply list_eq. intros k.
  rewrite list_lookup_fmap, list_lookup_insert. case_decide as Hd.
  - destruct Hd as [<- _]. by rewrite Hi.
  - destruct (l !! k) as [y|] eqn:Hk; simpl; [|done]. f_equal.
    apply (Hg k); [done|]. intros ->. apply Hd. split; [done|].
    by eapply lookup_lt_Some.
Qed.

Lemma fmap_no_slot {A} (g : A → A) (l : list A) :
  Forall (λ y, g y = y) l → g <$> l = l.
Proof. induction 1; simpl; [done|]. by f_equal. Qed.

Lemma archiveElem_onlyLive rs i L :
  onlyLiveAt rs i L → archiveElem <$> rs = <[i := setStatus Archived L]> rs.
Proof.
  intros H. pose proof H as (Hi & HL & _).
  rewrite (fmap_one_slot _ _ i L Hi).
  - unfold archiveElem. by rewrite decide_True.
  - intros k r Hk Hne. unfold archiveElem.
    rewrite decide_False; [done|]. by eapply onlyLiveAt_other.
Qed.

Lemma rollbackElem_onlyLive rs i L :
  onlyLiveAt rs i L →
  rollbackElem <$> rs
  = <[i := setLastRevisionID NilObjectID (setStatus Draft L)]> rs.
Proof.
  intros H. pose proof H as (Hi & HL & _).
  rewrite (fmap_one_slot _ _ i L Hi).
  - unfold rollbackElem. by rewrite decide_True.
  - intros k r Hk Hne. unfold rollbackElem.
    rewrite decide_False; [done|]. by eapply onlyLiveAt_other.
Qed.

(** ** Approve and Rollback on the shapes of interest *)

(** No Draft revision carries the requested id: the Live revisions are
    archived, nothing else happens to the revisions. *)
Lemma Approve_no_draft revisionID f :
  Forall (λ r, ¬ (ID r = revisionID ∧ Status r = Draft)) (Revisions f) →
  Revisions (Approve revisionID f) = archiveElem <$> Revisions f.
Proof.
  intros Hno. apply list_eq. intros k.
  rewrite Approve_lookup, list_lookup_fmap.
  destruct (Revisions f !! k) as [x|] eqn:Hk; simpl; [|done]. f_equal.
  unfold approveElem, archiveElem. case_decide; [done|].
  rewrite decide_False; [done|]. by apply (Forall_lookup_1 _ _ _ _ Hno Hk).
Qed.

Lemma archived_not_live rs :
  Forall (λ r, Status r ≠ Live) (archiveElem <$> rs).
Proof.
  apply Forall_fmap, Forall_forall. intros r _. simpl.
  unfold archiveElem. by case_decide.
Qed.

(** The Live revision [A] comes before the Draft target [B]. *)
Lemma Approve_after_live f i j A B :
  distinctIDs f → onlyLiveAt (Revisions f) i A →
  Revisions f !! j = Some B → Status B = Draft → (i < j)%nat →
  Revisions (Approve (ID B) f)
  = <[j := setLastRevisionID (ID A) (setStatus Live B)]>
      (<[i := setStatus Archived A]> (Revisions f)).
Proof.
  intros Hd HA HB HBd Hij. pose proof HA as (Hi & HAl & _).
  apply list_eq. intros k.
  rewrite Approve_lookup, (onlyLiveAt_carried_take _ _ _ _ _ _ HA).
  destruct (decide (k = j)) as [->|Hjk].
  - rewrite list_lookup_insert_eq
      by (rewrite length_insert; by eapply lookup_lt_Some).
    rewrite HB. simpl. f_equal.
    rewrite (decide_True (P := (i < j)%nat)) by done. unfold approveElem.
    rewrite (decide_False (P := Status B = Live)) by congruence.
    by rewrite decide_True.
  - rewrite list_lookup_insert_ne by done.
    destruct (decide (k = i)) as [->|Hik].
    + rewrite list_lookup_insert_eq by (by eapply lookup_lt_Some).
      rewrite Hi. simpl. f_equal. unfold approveElem.
      by rewrite (decide_True (P := Status A = Live)).
    + rewrite list_lookup_insert_ne by done.
      destruct (Revisions f !! k) as [x|] eqn:Hk; simpl; [|done]. f_equal.
      unfold approveElem.
      rewrite (decide_False (P := Status x = Live))
        by (by eapply onlyLiveAt_other).
      rewrite (decide_False (P := ID x = ID B ∧ Status x = Draft)); [done|].
      intros [Heq _]. apply Hjk.
      by apply (distinct_lookup _ _ _ _ _ Hd Hk HB).
Qed.

(** One Live revision [L]: it is demoted, its link is consumed. *)
Lemma Rollback_onlyLive f i L :
  onlyLiveAt (Revisions f) i L →
  Revisions (Rollback f)
  = restoreElem (LastRevisionID L)
    <$> <[i := setLastRevisionID NilObjectID (setStatus Draft L)]>
          (Revisions f).
Proof.
  intros H. rewrite Rollback_Revisions.
  by rewrite (onlyLiveAt_carried _ _ _ _ _ H), (rollbackElem_onlyLive _ _ _ H).
Qed.

(** No Live revision: the first loop finds nothing and the link is nil. *)
Lemma Rollback_no_live f :
  Forall (λ r, Status r ≠ Live) (Revisions f) →
  Revisions (Rollback f) = restoreElem NilObjectID <$> Revisions f.
Proof.
  intros H. rewrite Rollback_Revisions, (carried_none _ _ _ H).
  f_equal. apply fmap_no_slot. eapply Forall_impl; [exact H|].
  intros r Hr. simpl in Hr. unfold rollbackElem. by rewrite decide_False.
Qed.

(** ** The handlers when every collaborator answers *)

Lemma ApproveRevision_served o f revisionID :
  served o f →
  ApproveRevision o (Some revisionID)
  = mkResult (JSON StatusOK (Approve revisionID f))
      (Some [SetVersion (Version (Approve revisionID f));
             SetRevisions (Revisions (Approve revisionID f))]).
Proof.
  intros ([u Hu] & [g Hg] & Ho & Hp & [i Hi] & Hf & Hw & Ht).
  unfold ApproveRevision, authorize, persist.
  by rewrite Hu, Hg, Ho, Hp, Hi, Hf, Hw, Ht.
Qed.

Lemma RollbackFeatureFlagVersion_served o f :
  served o f →
  RollbackFeatureFlagVersion o
  = mkResult (JSON StatusOK (Rollback f))
      (Some [SetVersion (Version (Rollback f));
             SetRevisions (Revisions (Rollback f))]).
Proof.
  intros ([u Hu] & [g Hg] & Ho & Hp & [i Hi] & Hf & Hw & Ht).
  unfold RollbackFeatureFlagVersion, authorize, persist.
  by rewrite Hu, Hg, Ho, Hp, Hi, Hf, Hw, Ht.
Qed.

Lemma ToggleFeatureFlag_served o f env :
  served o f →
  ToggleFeatureFlag o env
  = mkResult (JSON StatusOK (Toggle env f))
      (Some [SetEnvironments (Environments (Toggle env f))]).
Proof.
  intros ([u Hu] & [g Hg] & Ho & Hp & [i Hi] & Hf & Hw & Ht).
  unfold ToggleFeatureFlag, authorize, persist.
  by rewrite Hu, Hg, Ho, Hp, Hi, Hf, Hw, Ht.
Qed.

Lemma JSON_not_fails code body w : ¬ fails (mkResult (JSON code body) w).
Proof. intros (m & c & H). simpl in H. discriminate. Qed.

Lemma served_answers f : served (Sample.answers f) f.
Proof. unfold served, Sample.answers; simpl. by eauto 10. Qed.

(** * The revision state machine *)

(** C1. Revisions being identified by their (pairwise distinct) ids, a flag
    that has at most one Live revision still has at most one Live revision
    after any finite sequence of Approve and Rollback operations. *)
Theorem single_live_preserved (f : FeatureFlagRecord) (ops : list Operation) :
  distinctIDs f → atMostOneLive f → atMostOneLive (performAll ops f).
Proof.
  unfold performAll. revert f.
  induction ops as [|op ops IH]; intros f Hd H1; simpl; [done|].
  apply IH.
  - by apply perform_distinctIDs.
  - by apply perform_atMostOneLive.
Qed.

Lemma single_live_preserved_witness :
  let f := Sample.flag 2 [Sample.revision 1 Live 0; Sample.revision 2 Draft 0] in
  let ops := [DoApprove 2%N; DoRollback; DoApprove 2%N; DoApprove 1%N;
              DoRollback; DoRollback] in
  distinctIDs f ∧ atMostOneLive f ∧ atMostOneLive (performAll ops f).
Proof.
  intros f ops.
  assert (Hd : distinctIDs f)
    by (apply (bool_decide_unpack _); vm_compute; exact I).
  assert (H1 : atMostOneLive f) by (unfold atMostOneLive; vm_compute; lia).
  split; [exact Hd|]. split; [exact H1|].
  exact (single_live_preserved f ops Hd H1).
Defined.

(** C7. Every successful Rollback decrements the version by exactly 1, and
    nothing clamps the counter: [n] rollbacks in a row take it from [v] to
    [v - n], past the initial value, zero and into the negatives. *)
Theorem rollback_version_unclamped (o : Outcomes) (f body : FeatureFlagRecord)
    (code : Z) (n : nat) :
  featureFlagFound o = Some f →
  response (RollbackFeatureFlagVersion o) = JSON code body →
  Version body = Version f - 1 ∧
  Version (stored f (RollbackFeatureFlagVersion o)) = Version f - 1 ∧
  Version (Rollback f) = Version f - 1 ∧
  Version (Nat.iter n Rollback f) = Version f - Z.of_nat n.
Proof.
  intros Hf Hr. split; [|split; [|split]].
  - revert Hr. unfold RollbackFeatureFlagVersion, authorize, persist, reject.
    rewrite Hf. repeat case_match; simpl; intros [= _ <-]; done.
  - revert Hr. unfold RollbackFeatureFlagVersion, authorize, persist, reject.
    rewrite Hf. repeat case_match; simpl; intros [= _ <-]; done.
  - apply Rollback_Version.
  - induction n as [|n IH]; [simpl; lia|].
    rewrite Nat.iter_succ, Rollback_Version, IH. lia.
Qed.

Lemma rollback_version_unclamped_witness :
  let f := Sample.flag 1 [Sample.revision 1 Live 0] in
  Version (Rollback f) = 0 ∧ Version (Nat.iter 3 Rollback f) = -2.
Proof.
  intros f.
  assert (Hf : featureFlagFound (Sample.answers f) = Some f) by reflexivity.
  assert (Hr : response (RollbackFeatureFlagVersion (Sample.answers f))
               = JSON 200 (Rollback f)) by reflexivity.
  destruct (rollback_version_unclamped _ f _ 200 3 Hf Hr) as (_ & _ & H1 & H3).
  split; [exact H1 | exact H3].
Defined.

(** C8. Toggle flips [IsEnabled] of the environment whose name is exactly
    the requested one and leaves every other environment as it was; when
    no environment has that name nothing changes, and in both cases the
    request is answered without an error. *)
Theorem toggle_flips_named_environment (o : Outcomes) (f : FeatureFlagRecord)
    (env : string) :
  served o f →
  Environments (Toggle env f)
  = (λ e, if decide (Name e = env)
          then mkEnvironment (Name e) (negb (IsEnabled e)) else e)
    <$> Environments f ∧
  (Forall (λ e, Name e ≠ env) (Environments f) →
   Environments (Toggle env f) = Environments f) ∧
  response (ToggleFeatureFlag o env) = JSON StatusOK (Toggle env f) ∧
  ¬ fails (ToggleFeatureFlag o env) ∧
  Environments (stored f (ToggleFeatureFlag o env))
  = Environments (Toggle env f).
Proof.
  intros Hs. rewrite (ToggleFeatureFlag_served _ _ _ Hs).
  rewrite Toggle_Environments. split; [|split; [|split; [|split]]].
  - done.
  - intros Hno. apply fmap_no_slot. eapply Forall_impl; [exact Hno|].
    intros e He. simpl in He. unfold toggleElem. by rewrite decide_False.
  - done.
  - apply JSON_not_fails.
  - reflexivity.
Qed.

Lemma toggle_flips_named_environment_witness :
  let f := Sample.flag 1 [] in
  served (Sample.answers f) f ∧
  Environments (Toggle "prod" f)
  = [mkEnvironment "prod" true; mkEnvironment "staging" true] ∧
  Environments (Toggle "Prod" f) = Environments f ∧
  ¬ fails (ToggleFeatureFlag (Sample.answers f) "Prod").
Proof.
  intros f. pose proof (served_answers f) as Hs.
  destruct (toggle_flips_named_environment _ f "prod" Hs) as (He & _).
  destruct (toggle_flips_named_environment _ f "Prod" Hs)
    as (_ & Hno & _ & Hn & _).
  split; [exact Hs|]. split; [rewrite He; reflexivity|].
  split; [|exact Hn].
  apply Hno. repeat constructor; simpl; discriminate.
Defined.

(** C9. Toggle touches neither the revisions nor the version counter, in
    memory as well as in the stored document, whatever the environment
    name and whatever the collaborators answer. *)
Theorem toggle_frames_revisions_and_version (o : Outcomes)
    (f : FeatureFlagRecord) (env : string) :
  Revisions (Toggle env f) = Revisions f ∧
  Version (Toggle env f) = Version f ∧
  Revisions (stored f (ToggleFeatureFlag o env)) = Revisions f ∧
  Version (stored f (ToggleFeatureFlag o env)) = Version f.
Proof.
  repeat split;
    unfold stored, ToggleFeatureFlag, authorize, persist, reject;
    repeat case_match; simplify_eq/=; done.
Qed.

(** C10. When the Approve target is the flag's only Live revision, that
    revision is archived instead of staying Live: no revision is Live
    afterwards, the other revisions are untouched, and the version is
    incremented by 1 all the same. *)
Theorem approve_live_target_archives_it (f : FeatureFlagRecord) (i : nat)
    (L : Revision) :
  distinctIDs f → onlyLiveAt (Revisions f) i L →
  Revisions (Approve (ID L) f) = <[i := setStatus Archived L]> (Revisions f) ∧
  Revisions (Approve (ID L) f) !! i = Some (setStatus Archived L) ∧
  liveCount (Revisions (Approve (ID L) f)) = 0%nat ∧
  Version (Approve (ID L) f) = Version f + 1.
Proof.
  intros Hd HL. pose proof HL as (Hi & Hl & _).
  assert (Hno : Forall (λ r, ¬ (ID r = ID L ∧ Status r = Draft)) (Revisions f)).
  { apply Forall_lookup. intros k r Hk [Heq HD].
    assert (k = i) as -> by (by apply (distinct_lookup _ _ _ _ _ Hd Hk Hi)).
    congruence. }
  rewrite (Approve_no_draft _ _ Hno). split; [|split; [|split]].
  - by apply archiveElem_onlyLive.
  - rewrite list_lookup_fmap, Hi. simpl. unfold archiveElem.
    by rewrite decide_True.
  - apply liveCount_none, archived_not_live.
  - apply Approve_Version.
Qed.

Lemma approve_live_target_archives_it_witness :
  let f := Sample.flag 2 [Sample.revision 1 Live 0; Sample.revision 2 Draft 0] in
  Revisions (Approve 1%N f)
  = [Sample.revision 1 Archived 0; Sample.revision 2 Draft 0] ∧
  liveCount (Revisions (Approve 1%N f)) = 0%nat ∧
  Version (Approve 1%N f) = 3.
Proof.
  intros f.
  assert (Hd : distinctIDs f)
    by (apply (bool_decide_unpack _); vm_compute; exact I).
  assert (HL : onlyLiveAt (Revisions f) 0 (Sample.revision 1 Live 0)).
  { split; [reflexivity|]. split; [reflexivity|].
    intros [|[|k]] r Hk Hr; simpl in Hk; [reflexivity| |discriminate].
    injection Hk as <-. discriminate Hr. }
  destruct (approve_live_target_archives_it f 0 _ Hd HL) as (H1 & _ & H2 & H3).
  split; [exact H1|]. split; [exact H2 | exact H3].
Defined.

Lemma stored_Approve o f revisionID :
  served o f → stored f (ApproveRevision o (Some revisionID)) = Approve revisionID f.
Proof. intros Hs. by rewrite (ApproveRevision_served _ _ _ Hs). Qed.

Lemma stored_Rollback o f :
  served o f → stored f (RollbackFeatureFlagVersion o) = Rollback f.
Proof. intros Hs. by rewrite (RollbackFeatureFlagVersion_served _ _ Hs). Qed.

(** C2, as amended. When the requested id names no Draft revision
    (unknown id, or a revision that is Live or Archived), Approve is not
    rejected: the request is answered with status 200, every Live revision
    is archived so that no revision is Live afterwards, every other
    revision is left as it was, and the version is incremented by 1. *)
Theorem approve_without_draft_target (o : Outcomes) (f : FeatureFlagRecord)
    (revisionID : ObjectID) :
  served o f →
  Forall (λ r, ¬ (ID r = revisionID ∧ Status r = Draft)) (Revisions f) →
  ¬ fails (ApproveRevision o (Some revisionID)) ∧
  response (ApproveRevision o (Some revisionID))
  = JSON StatusOK (Approve revisionID f) ∧
  stored f (ApproveRevision o (Some revisionID)) = Approve revisionID f ∧
  Revisions (Approve revisionID f) = archiveElem <$> Revisions f ∧
  liveCount (Revisions (Approve revisionID f)) = 0%nat ∧
  Version (Approve revisionID f) = Version f + 1.
Proof.
  intros Hs Hno. rewrite (stored_Approve _ _ _ Hs).
  rewrite (ApproveRevision_served _ _ _ Hs), (Approve_no_draft _ _ Hno).
  split; [apply JSON_not_fails|]. split; [done|]. split; [done|].
  split; [done|]. split; [|apply Approve_Version].
  apply liveCount_none, archived_not_live.
Qed.

Lemma approve_without_draft_target_witness :
  let f := Sample.flag 2 [Sample.revision 1 Live 0; Sample.revision 2 Draft 0] in
  ¬ fails (ApproveRevision (Sample.answers f) (Some 7%N)) ∧
  Revisions (Approve 7%N f)
  = [Sample.revision 1 Archived 0; Sample.revision 2 Draft 0] ∧
  Version (Approve 7%N f) = 3.
Proof.
  intros f.
  assert (Hno : Forall (λ r, ¬ (ID r = 7%N ∧ Status r = Draft)) (Revisions f)).
  { repeat constructor; simpl; intros [H _]; discriminate H. }
  destruct (approve_without_draft_target _ f 7%N (served_answers f) Hno)
    as (H1 & _ & _ & H2 & _ & H3).
  split; [exact H1|]. split; [|exact H3]. rewrite H2. reflexivity.
Defined.

(** C2, as stated, fails: approving the revision that is already Live is
    answered with status 200 and changes the flag. *)
Lemma approve_without_draft_target_counterexample :
  let f := Sample.flag 2 [Sample.revision 1 Live 0] in
  let o := Sample.answers f in
  served o f ∧
  Forall (λ r, ¬ (ID r = 1%N ∧ Status r = Draft)) (Revisions f) ∧
  response (ApproveRevision o (Some 1%N))
  = JSON 200 (Sample.flag 3 [Sample.revision 1 Archived 0]) ∧
  ¬ fails (ApproveRevision o (Some 1%N)) ∧
  stored f (ApproveRevision o (Some 1%N)) ≠ f.
Proof.
  intros f o. split; [apply served_answers|]. split.
  { repeat constructor; simpl; intros [_ H]; discriminate H. }
  split; [reflexivity|]. split.
  - intros (m & c & H). vm_compute in H. discriminate H.
  - intros H. vm_compute in H. discriminate H.
Qed.

(** C3 fails on a flag whose Live revision was created after the Draft
    that is approved: the loop reaches the target before it has seen the
    Live revision, so the target becomes Live with a nil [LastRevisionID]
    although revision 2 was Live before the call. *)
Lemma approve_draft_before_live_loses_link :
  let f := Sample.flag 2 [Sample.revision 1 Draft 0; Sample.revision 2 Live 0] in
  distinctIDs f ∧ atMostOneLive f ∧
  Revisions (Approve 1%N f)
  = [Sample.revision 1 Live NilObjectID; Sample.revision 2 Archived 0] ∧
  Revisions (Rollback (Approve 1%N f))
  = [Sample.revision 1 Draft 0; Sample.revision 2 Archived 0].
Proof.
  intros f. split; [apply (bool_decide_unpack _); vm_compute; exact I|].
  split; [unfold atMostOneLive; vm_compute; lia|].
  split; reflexivity.
Qed.

(** C4, as amended. With no Live revision Rollback is not rejected: the
    request is answered with status 200 and the version is decremented by
    1; the revisions are left as they were, provided no Archived revision
    carries the nil id. *)
Theorem rollback_without_live (o : Outcomes) (f : FeatureFlagRecord) :
  served o f →
  Forall (λ r, Status r ≠ Live) (Revisions f) →
  Forall (λ r, ¬ (ID r = NilObjectID ∧ Status r = Archived)) (Revisions f) →
  ¬ fails (RollbackFeatureFlagVersion o) ∧
  response (RollbackFeatureFlagVersion o) = JSON StatusOK (Rollback f) ∧
  stored f (RollbackFeatureFlagVersion o) = Rollback f ∧
  Revisions (Rollback f) = Revisions f ∧
  Version (Rollback f) = Version f - 1.
Proof.
  intros Hs Hno Hnil. rewrite (stored_Rollback _ _ Hs).
  rewrite (RollbackFeatureFlagVersion_served _ _ Hs).
  split; [apply JSON_not_fails|]. split; [done|]. split; [done|].
  split; [|apply Rollback_Version].
  rewrite (Rollback_no_live _ Hno). apply fmap_no_slot.
  eapply Forall_impl; [exact Hnil|]. intros r Hr. simpl in Hr.
  unfold restoreElem. by rewrite decide_False.
Qed.

Lemma rollback_without_live_witness :
  let f := Sample.flag 1
             [Sample.revision 1 Draft 0; Sample.revision 2 Archived 0] in
  ¬ fails (RollbackFeatureFlagVersion (Sample.answers f)) ∧
  Revisions (Rollback f) = Revisions f ∧ Version (Rollback f) = 0.
Proof.
  intros f.
  assert (Hno : Forall (λ r, Status r ≠ Live) (Revisions f))
    by (repeat constructor; simpl; discriminate).
  assert (Hnil : Forall (λ r, ¬ (ID r = NilObjectID ∧ Status r = Archived))
                   (Revisions f))
    by (repeat constructor; simpl; intros [H _]; discriminate H).
  destruct (rollback_without_live _ f (served_answers f) Hno Hnil)
    as (H1 & _ & _ & H2 & H3).
  split; [exact H1|]. split; [exact H2 | exact H3].
Defined.

(** C4, as stated, fails: a flag with no Live revision is rolled back
    with status 200 and its version goes from 1 to 0. *)
Lemma rollback_without_live_counterexample :
  let f := Sample.flag 1 [Sample.revision 1 Draft 0] in
  let o := Sample.answers f in
  served o f ∧
  Forall (λ r, Status r ≠ Live) (Revisions f) ∧
  response (RollbackFeatureFlagVersion o)
  = JSON 200 (Sample.flag 0 [Sample.revision 1 Draft 0]) ∧
  ¬ fails (RollbackFeatureFlagVersion o) ∧
  Version (stored f (RollbackFeatureFlagVersion o)) ≠ Version f.
Proof.
  intros f o. split; [apply served_answers|]. split.
  { repeat constructor; simpl; discriminate. }
  split; [reflexivity|]. split.
  - intros (m & c & H). vm_compute in H. discriminate H.
  - intros H. vm_compute in H. discriminate H.
Qed.

(** C5, as amended. Revisions being identified by their ids, when the
    only Live revision [L] carries a link to a revision [T] that is not
    Archived, Rollback is not rejected: the request is answered with
    status 200, [L] becomes a Draft whose link is cleared, no revision is
    restored (none is Live afterwards), every other revision is left as it
    was, and the version is decremented by 1. *)
Theorem rollback_with_corrupt_link (o : Outcomes) (f : FeatureFlagRecord)
    (i j : nat) (L T : Revision) :
  served o f → distinctIDs f →
  onlyLiveAt (Revisions f) i L → LastRevisionID L ≠ NilObjectID →
  Revisions f !! j = Some T → ID T = LastRevisionID L →
  Status T ≠ Archived →
  ¬ fails (RollbackFeatureFlagVersion o) ∧
  response (RollbackFeatureFlagVersion o) = JSON StatusOK (Rollback f) ∧
  Revisions (Rollback f)
  = <[i := setLastRevisionID NilObjectID (setStatus Draft L)]> (Revisions f) ∧
  liveCount (Revisions (Rollback f)) = 0%nat ∧
  Version (Rollback f) = Version f - 1.
Proof.
  intros Hs Hd HL _ HT Hid HTs. pose proof HL as (Hi & Hl & _).
  rewrite (RollbackFeatureFlagVersion_served _ _ Hs).
  split; [apply JSON_not_fails|]. split; [done|].
  assert (Hrev : Revisions (Rollback f)
    = <[i := setLastRevisionID NilObjectID (setStatus Draft L)]> (Revisions f)).
  { rewrite (Rollback_onlyLive _ _ _ HL). apply fmap_no_slot.
    apply Forall_lookup. intros k r Hk. unfold restoreElem.
    rewrite decide_False; [done|]. intros [Heq Har].
    apply list_lookup_insert_Some in Hk as [(-> & <- & _)|[Hne Hk]].
    - discriminate Har.
    - assert (k = j) as -> by
        (apply (distinct_lookup _ _ _ _ _ Hd Hk HT); congruence).
      congruence. }
  split; [exact Hrev|]. split; [|apply Rollback_Version].
  rewrite Hrev. apply liveCount_none, Forall_lookup. intros k r Hk.
  apply list_lookup_insert_Some in Hk as [(-> & <- & _)|[Hne Hk]].
  - simpl. discriminate.
  - by eapply onlyLiveAt_other.
Qed.

Lemma rollback_with_corrupt_link_witness :
  let f := Sample.flag 3 [Sample.revision 1 Draft 0; Sample.revision 2 Live 1] in
  ¬ fails (RollbackFeatureFlagVersion (Sample.answers f)) ∧
  Revisions (Rollback f)
  = [Sample.revision 1 Draft 0; Sample.revision 2 Draft 0] ∧
  Version (Rollback f) = 2.
Proof.
  intros f.
  assert (Hd : distinctIDs f)
    by (apply (bool_decide_unpack _); vm_compute; exact I).
  assert (HL : onlyLiveAt (Revisions f) 1 (Sample.revision 2 Live 1)).
  { split; [reflexivity|]. split; [reflexivity|].
    intros [|[|k]] r Hk Hr; simpl in Hk; [|reflexivity|discriminate].
    injection Hk as <-. discriminate Hr. }
  assert (Hn : LastRevisionID (Sample.revision 2 Live 1) ≠ NilObjectID)
    by discriminate.
  assert (HT : Revisions f !! 0%nat = Some (Sample.revision 1 Draft 0))
    by reflexivity.
  assert (Hs : Status (Sample.revision 1 Draft 0) ≠ Archived) by discriminate.
  destruct (rollback_with_corrupt_link _ f 1 0 _ _ (served_answers f) Hd HL Hn
              HT eq_refl Hs) as (H1 & _ & H2 & _ & H3).
  split; [exact H1|]. split; [exact H2 | exact H3].
Defined.

(** C5, as stated, fails: the Live revision 2 links to revision 1, which
    is a Draft, and Rollback is answered with status 200. *)
Lemma rollback_with_corrupt_link_counterexample :
  let f := Sample.flag 3 [Sample.revision 1 Draft 0; Sample.revision 2 Live 1] in
  let o := Sample.answers f in
  served o f ∧ distinctIDs f ∧
  onlyLiveAt (Revisions f) 1 (Sample.revision 2 Live 1) ∧
  LastRevisionID (Sample.revision 2 Live 1) ≠ NilObjectID ∧
  Revisions f !! 0%nat = Some (Sample.revision 1 Draft 0) ∧
  ID (Sample.revision 1 Draft 0) = LastRevisionID (Sample.revision 2 Live 1) ∧
  Status (Sample.revision 1 Draft 0) ≠ Archived ∧
  response (RollbackFeatureFlagVersion o)
  = JSON 200 (Sample.flag 2
                [Sample.revision 1 Draft 0; Sample.revision 2 Draft 0]) ∧
  ¬ fails (RollbackFeatureFlagVersion o).
Proof.
  intros f o. split; [apply served_answers|].
  split; [apply (bool_decide_unpack _); vm_compute; exact I|]. split.
  { split; [reflexivity|]. split; [reflexivity|].
    intros [|[|k]] r Hk Hr; simpl in Hk; [|reflexivity|discriminate].
    injection Hk as <-. discriminate Hr. }
  split; [discriminate|]. split; [reflexivity|]. split; [reflexivity|].
  split; [discriminate|]. split; [reflexivity|].
  intros (m & c & H). vm_compute in H. discriminate H.
Qed.

(** C6, as amended. Revisions being identified by their ids, on a flag
    with version [v] whose only Live revision [A] comes before the Draft
    revision [B] in the sequence, Approve([B]) followed by Rollback gives
    back the flag it started from, except that the link of [B] is cleared:
    [A] is Live again with the link it had, [B] is a Draft with no link,
    every other revision is as it was, and the version is [v] again. *)
Theorem approve_then_rollback_restores (f : FeatureFlagRecord) (i j : nat)
    (A B : Revision) :
  distinctIDs f → onlyLiveAt (Revisions f) i A →
  Revisions f !! j = Some B → Status B = Draft → (i < j)%nat →
  Revisions (Rollback (Approve (ID B) f)) !! i = Some A ∧
  Revisions (Rollback (Approve (ID B) f)) !! j
  = Some (setLastRevisionID NilObjectID B) ∧
  Status (setLastRevisionID NilObjectID B) = Draft ∧
  Revisions (Rollback (Approve (ID B) f))
  = <[j := setLastRevisionID NilObjectID B]> (Revisions f) ∧
  Version (Rollback (Approve (ID B) f)) = Version f.
Proof.
  intros Hd HA HB HBd Hij. pose proof HA as (Hi & HAl & _).
  pose proof (lookup_lt_Some _ _ _ Hi) as Hilen.
  pose proof (lookup_lt_Some _ _ _ HB) as Hjlen.
  set (A' := setStatus Archived A).
  set (B' := setLastRevisionID (ID A) (setStatus Live B)).
  pose proof (Approve_after_live f i j A B Hd HA HB HBd Hij) as Hap.
  fold A' B' in Hap.
  assert (HB' : onlyLiveAt (Revisions (Approve (ID B) f)) j B').
  { rewrite Hap. split; [|split; [done|]].
    - apply list_lookup_insert_eq. by rewrite length_insert.
    - intros k r Hk Hr. destruct (decide (k = j)) as [|Hkj]; [done|].
      rewrite list_lookup_insert_ne in Hk by done.
      apply list_lookup_insert_Some in Hk as [(_ & <- & _)|[Hne Hk]].
      + discriminate Hr.
      + exfalso. by eapply (onlyLiveAt_other _ _ _ _ _ HA Hk). }
  assert (Hrev : Revisions (Rollback (Approve (ID B) f))
                 = <[j := setLastRevisionID NilObjectID B]> (Revisions f)).
  { rewrite (Rollback_onlyLive _ _ _ HB'), Hap, list_insert_insert_eq.
    replace (setLastRevisionID NilObjectID (setStatus Draft B'))
      with (setLastRevisionID NilObjectID B)
      by (destruct B; simpl in *; by subst).
    apply list_eq. intros k. rewrite list_lookup_fmap.
    destruct (decide (k = j)) as [->|Hkj].
    - rewrite !list_lookup_insert_eq by (by rewrite ?length_insert).
      simpl. f_equal. unfold restoreElem. rewrite decide_False; [done|].
      intros [Heq _]. simpl in Heq.
      pose proof (distinct_lookup _ _ _ _ _ Hd HB Hi Heq). lia.
    - rewrite !(list_lookup_insert_ne _ j k) by done.
      destruct (decide (k = i)) as [->|Hki].
      + rewrite list_lookup_insert_eq, Hi by done. simpl. f_equal.
        unfold restoreElem. rewrite decide_True by done.
        destruct A; simpl in *; by subst.
      + rewrite list_lookup_insert_ne by done.
        destruct (Revisions f !! k) as [x|] eqn:Hk; simpl; [|done]. f_equal.
        unfold restoreElem. rewrite decide_False; [done|].
        intros [Heq _]. simpl in Heq. apply Hki.
        by apply (distinct_lookup _ _ _ _ _ Hd Hk Hi). }
  rewrite Hrev. split; [|split; [|split; [done|split; [done|]]]].
  - rewrite list_lookup_insert_ne by lia. exact Hi.
  - by apply list_lookup_insert_eq.
  - rewrite Rollback_Version, Approve_Version. lia.
Qed.

Lemma approve_then_rollback_restores_witness :
  let f := Sample.flag 2 [Sample.revision 1 Live 0; Sample.revision 2 Draft 0] in
  Revisions (Rollback (Approve 2%N f)) = Revisions f ∧
  Version (Rollback (Approve 2%N f)) = 2.
Proof.
  intros f.
  assert (Hd : distinctIDs f)
    by (apply (bool_decide_unpack _); vm_compute; exact I).
  assert (HA : onlyLiveAt (Revisions f) 0 (Sample.revision 1 Live 0)).
  { split; [reflexivity|]. split; [reflexivity|].
    intros [|[|k]] r Hk Hr; simpl in Hk; [reflexivity| |discriminate].
    injection Hk as <-. discriminate Hr. }
  assert (HB : Revisions f !! 1%nat = Some (Sample.revision 2 Draft 0))
    by reflexivity.
  destruct (approve_then_rollback_restores f 0 1 _ _ Hd HA HB eq_refl
              (Nat.lt_0_succ 0)) as (_ & _ & _ & H1 & H2).
  split; [exact H1 | exact H2].
Defined.

(** C6, as stated, fails: the round trip clears the link of [B], not the
    link of [A]. Revision 2 is Live and links to the archived revision 1;
    after approving revision 3 and rolling back, revision 2 is Live again
    and still links to revision 1. *)
Lemma approve_then_rollback_restores_counterexample :
  let A := Sample.revision 2 Live 1 in
  let B := Sample.revision 3 Draft 0 in
  let f := Sample.flag 3 [Sample.revision 1 Archived 0; A; B] in
  distinctIDs f ∧ onlyLiveAt (Revisions f) 1 A ∧
  Revisions f !! 2%nat = Some B ∧ Status B = Draft ∧
  Revisions (Rollback (Approve (ID B) f)) !! 1%nat = Some A ∧
  LastRevisionID A ≠ NilObjectID.
Proof.
  intros A B f.
  split; [apply (bool_decide_unpack _); vm_compute; exact I|]. split.
  { split; [reflexivity|]. split; [reflexivity|].
    intros [|[|[|k]]] r Hk Hr; simpl in Hk; [|reflexivity| |discriminate];
      injection Hk as <-; discriminate Hr. }
  split; [reflexivity|]. split; [reflexivity|]. split; [reflexivity|].
  discriminate.
Qed.

(** * Further properties of the handlers *)

(** ** Toggling *)

Lemma Toggle_eq env f :
  Toggle env f = setEnvironments (toggleElem env <$> Environments f) f.
Proof.
  pose proof (Toggle_Environments env f) as H. unfold Toggle in *.
  simpl in H. by rewrite H.
Qed.

Lemma toggleElem_twice env e : toggleElem env (toggleElem env e) = e.
Proof.
  unfold toggleElem. destruct (decide (Name e = env)) as [He|He]; simpl.
  - rewrite decide_True by done. destruct e as [n b]. unfold setIsEnabled.
    simpl. by rewrite negb_involutive.
  - by rewrite decide_False.
Qed.

Lemma toggleElem_comm a b e :
  toggleElem a (toggleElem b e) = toggleElem b (toggleElem a e).
Proof.
  unfold toggleElem.
  destruct (decide (Name e = b)), (decide (Name e = a)); simpl;
    repeat case_decide; simpl in *; done.
Qed.

(** X1. Toggling the same environment name twice gives back the flag it
    started from, whether or not an environment has that name. *)
Theorem toggle_twice (env : string) (f : FeatureFlagRecord) :
  Toggle env (Toggle env f) = f.
Proof.
  rewrite !Toggle_eq. destruct f as [i g n v es rs]. unfold setEnvironments.
  simpl. f_equal. rewrite <- list_fmap_compose.
  rewrite <- (list_fmap_id es) at 2. apply list_fmap_ext.
  intros _ e _. apply toggleElem_twice.
Qed.

(** X2. Toggles of two environment names commute, equal names included. *)
Theorem toggle_commutes (a b : string) (f : FeatureFlagRecord) :
  Toggle a (Toggle b f) = Toggle b (Toggle a f).
Proof.
  rewrite !Toggle_eq. unfold setEnvironments. simpl. f_equal.
  rewrite <- !list_fmap_compose. apply list_fmap_ext.
  intros _ e _. apply toggleElem_comm.
Qed.

(** X3. Toggle never adds, removes, renames or reorders environments, and
    the environments it flips are exactly those bearing the name: the
    number of flipped entries is the number of entries with that name. *)
Theorem toggle_keeps_names (env : string) (f : FeatureFlagRecord) :
  Name <$> Environments (Toggle env f) = Name <$> Environments f ∧
  length (Environments (Toggle env f)) = length (Environments f) ∧
  ∀ k e, Environments f !! k = Some e →
    ∃ e', Environments (Toggle env f) !! k = Some e' ∧ Name e' = Name e ∧
      (IsEnabled e' ≠ IsEnabled e ↔ Name e = env).
Proof.
  rewrite Toggle_Environments. split; [|split].
  - rewrite <- list_fmap_compose. apply list_fmap_ext. intros _ e _. simpl.
    unfold toggleElem. by case_decide.
  - apply length_fmap.
  - intros k e Hk. exists (toggleElem env e).
    rewrite list_lookup_fmap, Hk. split; [done|].
    unfold toggleElem. case_decide; simpl.
    + split; [done|]. split; [done|]. by destruct (IsEnabled e).
    + split; [done|]. split; [done | by intros].
Qed.

Lemma toggle_keeps_names_witness :
  let f := Sample.flag 1 [] in
  ∃ e', Environments (Toggle "prod" f) !! 0%nat = Some e' ∧
        Name e' = "prod" ∧ IsEnabled e' ≠ false.
Proof.
  intros f.
  destruct (proj2 (proj2 (toggle_keeps_names "prod" f)) 0%nat
              (mkEnvironment "prod" false) eq_refl) as (e' & H1 & H2 & H3).
  exists e'. split; [exact H1|]. split; [exact H2|]. by apply H3.
Defined.

(** ** What the lifecycle leaves alone *)

Lemma Approve_payload revisionID f :
  payload <$> Revisions (Approve revisionID f) = payload <$> Revisions f.
Proof.
  rewrite Approve_Revisions. apply scan_fmap_key. intros x s.
  unfold approveElem. by repeat case_decide.
Qed.

Lemma Rollback_payload f :
  payload <$> Revisions (Rollback f) = payload <$> Revisions f.
Proof.
  rewrite Rollback_Revisions, <- !list_fmap_compose.
  apply list_fmap_ext. intros _ x _. simpl.
  unfold restoreElem, rollbackElem. by repeat case_decide.
Qed.

(** X4. Whatever sequence of Approve and Rollback is performed, the
    revisions keep their number, their order, their ids, creators, default
    values and rules: only statuses and links change. The identity of the
    flag, its name and its environments are untouched as well. *)
Theorem lifecycle_keeps_payload (ops : list Operation) (f : FeatureFlagRecord) :
  payload <$> Revisions (performAll ops f) = payload <$> Revisions f ∧
  length (Revisions (performAll ops f)) = length (Revisions f) ∧
  Environments (performAll ops f) = Environments f ∧
  FlagID (performAll ops f) = FlagID f ∧
  OrganizationID (performAll ops f) = OrganizationID f ∧
  FlagName (performAll ops f) = FlagName f.
Proof.
  unfold performAll. revert f.
  induction ops as [|op ops IH]; intros f; simpl; [done|].
  destruct (IH (perform f op)) as (H1 & H2 & H3 & H4 & H5 & H6).
  assert (Hp : payload <$> Revisions (perform f op) = payload <$> Revisions f)
    by (destruct op; [apply Approve_payload | apply Rollback_payload]).
  rewrite H1, H2, H3, H4, H5, H6, Hp.
  split; [done|]. split.
  - by rewrite <- (length_fmap payload), Hp, length_fmap.
  - by destruct op.
Qed.

(** X5. The version after a sequence of operations is the initial version
    plus the number of approvals minus the number of rollbacks: every
    Approve counts, also one that approved nothing, and every Rollback
    counts, also one that restored nothing. *)
Theorem version_accounting (ops : list Operation) (f : FeatureFlagRecord) :
  Version (performAll ops f) = Version f + netApprovals ops.
Proof.
  unfold performAll. revert f.
  induction ops as [|op ops IH]; intros f; simpl; [lia|].
  rewrite IH. destruct op; simpl; lia.
Qed.

(** ** The transitions of one revision *)

Lemma carried_origin link s rs :
  carried link s rs = s ∨
  ∃ k r, rs !! k = Some r ∧ Status r = Live ∧ carried link s rs = link r.
Proof.
  revert s. induction rs as [|x rs IH]; intros s; [by left|].
  unfold carried in *. simpl.
  destruct (IH (liveNext link x s)) as [H|(k & r & Hk & Hr & H)].
  - rewrite H. unfold liveNext. case_decide; [|by left].
    right. by exists 0%nat, x.
  - right. by exists (Datatypes.S k), r.
Qed.

(** X6. What Approve does to the revision at one index. A Live revision
    is archived and keeps its link; an Archived one, and a Draft with
    another id, are left as they are; a Draft with the requested id
    becomes Live, and its link is nil or the id of a revision found Live
    earlier in the sequence. So a revision is Live after Approve only if
    it was a Draft carrying the requested id. *)
Theorem approve_transitions (revisionID : ObjectID) (f : FeatureFlagRecord)
    (k : nat) (r : Revision) :
  Revisions f !! k = Some r →
  ∃ r', Revisions (Approve revisionID f) !! k = Some r' ∧
    payload r' = payload r ∧
    (Status r' = Live → Status r = Draft ∧ ID r = revisionID) ∧
    match Status r with
    | Live => r' = setStatus Archived r
    | Archived => r' = r
    | Draft =>
        if decide (ID r = revisionID)
        then Status r' = Live ∧
             (LastRevisionID r' = NilObjectID ∨
              ∃ k0 r0, (k0 < k)%nat ∧ Revisions f !! k0 = Some r0 ∧
                       Status r0 = Live ∧ LastRevisionID r' = ID r0)
        else r' = r
    end.
Proof.
  intros Hk. eexists. rewrite Approve_lookup, Hk. simpl.
  split; [reflexivity|]. unfold approveElem.
  destruct (Status r) eqn:Hs.
  - rewrite decide_False by congruence.
    destruct (decide (ID r = revisionID)) as [Hid|Hid].
    + rewrite decide_True by done. simpl. split; [done|]. split; [done|].
      split; [done|].
      destruct (carried_origin ID NilObjectID (take k (Revisions f)))
        as [H|(k0 & r0 & Hk0 & Hr0 & H)]; [by left|].
      right. apply lookup_take_Some in Hk0 as [Hk0 Hlt].
      by exists k0, r0.
    + rewrite decide_False by tauto. split; [done|]. split; [|done].
      congruence.
  - rewrite decide_True by done. simpl. split; [done|]. split; [|done].
    discriminate.
  - rewrite decide_False by congruence.
    rewrite decide_False by (intros [_ ?]; congruence).
    split; [done|]. split; [|done]. congruence.
Qed.

Lemma approve_transitions_witness :
  let f := Sample.flag 2 [Sample.revision 1 Live 0; Sample.revision 2 Draft 0] in
  ∃ r', Revisions (Approve 2%N f) !! 1%nat = Some r' ∧
        payload r' = payload (Sample.revision 2 Draft 0) ∧ Status r' = Live.
Proof.
  intros f.
  destruct (approve_transitions 2%N f 1 (Sample.revision 2 Draft 0) eq_refl)
    as (r' & Hr' & Hp & _ & Hs).
  exists r'. split; [exact Hr'|]. split; [exact Hp|].
  simpl in Hs. exact (proj1 Hs).
Defined.

(** X7. What Rollback does to the revision at one index. A Live revision
    becomes a Draft and loses its link; a Draft is left as it is; an
    Archived revision is left as it is or becomes Live, and it becomes Live
    only if its id is the link of a revision that was Live, or is the nil
    id. So no revision that was Live is Live after Rollback. *)
Theorem rollback_transitions (f : FeatureFlagRecord) (k : nat) (r : Revision) :
  Revisions f !! k = Some r →
  ∃ r', Revisions (Rollback f) !! k = Some r' ∧
    payload r' = payload r ∧
    (Status r' = Live → Status r = Archived) ∧
    match Status r with
    | Live => r' = setLastRevisionID NilObjectID (setStatus Draft r)
    | Draft => r' = r
    | Archived =>
        r' = r ∨
        (r' = setStatus Live r ∧
         (ID r = NilObjectID ∨
          ∃ k0 r0, Revisions f !! k0 = Some r0 ∧ Status r0 = Live ∧
                   LastRevisionID r0 = ID r))
    end.
Proof.
  intros Hk. eexists. rewrite Rollback_Revisions, !list_lookup_fmap, Hk. simpl.
  split; [reflexivity|]. unfold restoreElem, rollbackElem.
  destruct (Status r) eqn:Hs.
  - rewrite (decide_False (P := Draft = Live)) by done.
    rewrite decide_False by (intros [_ ?]; congruence).
    split; [done|]. split; [|done]. congruence.
  - rewrite (decide_True (P := Live = Live)) by done. simpl.
    rewrite decide_False by (intros [_ ?]; done).
    split; [done|]. split; [|done]. discriminate.
  - rewrite (decide_False (P := Archived = Live)) by done.
    destruct (decide (ID r = carried LastRevisionID NilObjectID (Revisions f)
                      ∧ Status r = Archived)) as [[Hid _]|Hno].
    + simpl. split; [done|]. split; [done|]. right. split; [done|].
      destruct (carried_origin LastRevisionID NilObjectID (Revisions f))
        as [H|(k0 & r0 & Hk0 & Hr0 & H)].
      * left. congruence.
      * right. exists k0, r0. split; [done|]. split; [done|]. congruence.
    + split; [done|]. split; [done|]. by left.
Qed.

Lemma rollback_transitions_witness :
  let f := Sample.flag 3
             [Sample.revision 1 Archived 0; Sample.revision 2 Live 1] in
  Revisions (Rollback f) !! 1%nat = Some (Sample.revision 2 Draft 0).
Proof.
  intros f.
  destruct (rollback_transitions f 1 (Sample.revision 2 Live 1) eq_refl)
    as (r' & Hr' & _ & _ & Hs).
  simpl in Hs. rewrite Hr', Hs. reflexivity.
Defined.

(** ** Invariants of the lifecycle *)

Lemma perform_draftsUnlinked f op :
  draftsUnlinked f → draftsUnlinked (perform f op).
Proof.
  unfold draftsUnlinked. intros H. destruct op as [revisionID|]; unfold perform.
  - apply Forall_lookup. intros k r' Hk. rewrite Approve_lookup in Hk.
    destruct (Revisions f !! k) as [x|] eqn:Hx; simplify_eq/=.
    pose proof (Forall_lookup_1 _ _ _ _ H Hx) as Hl. simpl in Hl.
    unfold approveElem. repeat case_decide; simpl; try done; congruence.
  - rewrite Rollback_Revisions. apply Forall_fmap, Forall_fmap.
    eapply Forall_impl; [exact H|]. intros x Hl. simpl in *.
    unfold restoreElem, rollbackElem.
    repeat case_decide; simpl in *; try done; try congruence; tauto.
Qed.

Lemma carried_ID_elem s rs :
  carried ID s rs = s ∨ carried ID s rs ∈ ID <$> rs.
Proof.
  destruct (carried_origin ID s rs) as [H|(k & r & Hk & _ & H)]; [by left|].
  right. rewrite H. by apply list_elem_of_fmap_2, (list_elem_of_lookup_2 _ k).
Qed.

Lemma perform_linksResolve f op : linksResolve f → linksResolve (perform f op).
Proof.
  unfold linksResolve. intros H. destruct op as [revisionID|]; unfold perform.
  - rewrite Approve_IDs. apply Forall_lookup. intros k r' Hk.
    rewrite Approve_lookup in Hk.
    destruct (Revisions f !! k) as [x|] eqn:Hx; simplify_eq/=.
    pose proof (Forall_lookup_1 _ _ _ _ H Hx) as Hl. simpl in Hl.
    unfold approveElem. repeat case_decide; simpl; try done.
    destruct (carried_ID_elem NilObjectID (take k (Revisions f))) as [Hc|Hc];
      [by left|]. right.
    apply list_elem_of_fmap in Hc as (r0 & -> & Hr0).
    apply list_elem_of_fmap_2. apply list_elem_of_lookup in Hr0 as [k0 Hk0].
    apply lookup_take_Some in Hk0 as [Hk0 _].
    by apply (list_elem_of_lookup_2 _ k0).
  - rewrite Rollback_IDs, Rollback_Revisions. apply Forall_fmap, Forall_fmap.
    eapply Forall_impl; [exact H|]. intros x Hl. simpl in *.
    unfold restoreElem, rollbackElem.
    repeat case_decide; simpl in *; try done; by left.
Qed.

(** X8. A Draft revision never carries a link: if that holds of a flag it
    holds after any sequence of Approve and Rollback, because Approve only
    writes the link of the revision it makes Live and Rollback clears the
    link of the revision it makes a Draft. *)
Theorem drafts_stay_unlinked (ops : list Operation) (f : FeatureFlagRecord) :
  draftsUnlinked f → draftsUnlinked (performAll ops f).
Proof.
  unfold performAll. revert f.
  induction ops as [|op ops IH]; intros f H; simpl; [done|].
  by apply IH, perform_draftsUnlinked.
Qed.

Lemma drafts_stay_unlinked_witness :
  let f := Sample.flag 2 [Sample.revision 1 Live 0; Sample.revision 2 Draft 0] in
  draftsUnlinked (performAll [DoApprove 2%N; DoRollback] f).
Proof.
  intros f. apply drafts_stay_unlinked.
  repeat constructor; simpl; discriminate.
Defined.

(** X9. No dangling link: if every link of a flag is nil or the id of one
    of its revisions, the same holds after any sequence of Approve and
    Rollback. *)
Theorem links_stay_resolved (ops : list Operation) (f : FeatureFlagRecord) :
  linksResolve f → linksResolve (performAll ops f).
Proof.
  unfold performAll. revert f.
  induction ops as [|op ops IH]; intros f H; simpl; [done|].
  by apply IH, perform_linksResolve.
Qed.

Lemma links_stay_resolved_witness :
  let f := Sample.flag 2 [Sample.revision 1 Live 0; Sample.revision 2 Draft 0] in
  linksResolve (performAll [DoApprove 2%N; DoApprove 1%N; DoRollback] f).
Proof.
  intros f. apply links_stay_resolved.
  repeat constructor; simpl; by left.
Defined.

Lemma liveCount_snoc rs r :
  Status r ≠ Live → liveCount (rs ++ [r]) = liveCount rs.
Proof.
  intros H. unfold liveCount. rewrite filter_app, length_app.
  rewrite filter_cons_False by done. simpl. lia.
Qed.

(** X10. Every flag the handlers can produce from a flag created with at
    most one revision, by pushing revisions that have a fresh id and are
    not Live and by approving and rolling back, has pairwise distinct
    revision ids and at most one Live revision. *)
Theorem reachable_single_live (f : FeatureFlagRecord) :
  reachable f → distinctIDs f ∧ atMostOneLive f.
Proof.
  induction 1 as [f Hlen|f revision _ [Hd H1] Hfresh Hs
                 |f revisionID _ [Hd _]|f _ [Hd _]].
  - unfold distinctIDs, atMostOneLive. split.
    + destruct (Revisions f) as [|r [|r' rs]]; simpl in *; [| |lia].
      * apply NoDup_nil_2.
      * apply NoDup_singleton.
    + pose proof (length_filter (λ r, Status r = Live) (Revisions f)).
      unfold liveCount. lia.
  - split; [by apply PushRevision_distinctIDs|].
    unfold atMostOneLive, PushRevision. simpl. by rewrite liveCount_snoc.
  - split.
    + by apply (perform_distinctIDs f (DoApprove revisionID)).
    + by apply (perform_atMostOneLive f (DoApprove revisionID)).
  - split.
    + by apply (perform_distinctIDs f DoRollback).
    + by apply (perform_atMostOneLive f DoRollback).
Qed.

Lemma reachable_single_live_witness :
  let f := Approve 2%N
             (PushRevision (Sample.revision 2 Draft 0)
                (Approve 1%N (Sample.flag 1 [Sample.revision 1 Draft 0]))) in
  distinctIDs f ∧ atMostOneLive f.
Proof.
  intros f. apply reachable_single_live.
  apply reachable_approved, reachable_patched.
  - apply reachable_approved, reachable_created. simpl. lia.
  - vm_compute. intros H. apply list_elem_of_singleton in H. discriminate H.
  - discriminate.
Defined.

(** ** Approve and Rollback on well-formed flags *)

Lemma onlyLiveAt_insert rs j X :
  (j < length rs)%nat → Status X = Live →
  (∀ k r, rs !! k = Some r → k ≠ j → Status r ≠ Live) →
  onlyLiveAt (<[j := X]> rs) j X.
Proof.
  intros Hj HX Hno. split; [by apply list_lookup_insert_eq|]. split; [done|].
  intros k r Hk Hr. destruct (decide (k = j)) as [|Hkj]; [done|].
  rewrite list_lookup_insert_ne in Hk by done. by destruct (Hno k r Hk).
Qed.

Lemma Approve_first f j B :
  Forall (λ r, Status r ≠ Live) (Revisions f) → distinctIDs f →
  Revisions f !! j = Some B → Status B = Draft →
  Revisions (Approve (ID B) f)
  = <[j := setLastRevisionID NilObjectID (setStatus Live B)]> (Revisions f).
Proof.
  intros Hno Hd HB HBd. apply list_eq. intros k.
  rewrite Approve_lookup, (carried_none _ _ _ (Forall_take _ k _ Hno)).
  destruct (decide (k = j)) as [->|Hkj].
  - rewrite list_lookup_insert_eq by (by eapply lookup_lt_Some).
    rewrite HB. simpl. f_equal. unfold approveElem.
    rewrite (decide_False (P := Status B = Live)) by congruence.
    by rewrite decide_True.
  - rewrite list_lookup_insert_ne by done.
    destruct (Revisions f !! k) as [x|] eqn:Hk; simpl; [|done]. f_equal.
    unfold approveElem.
    rewrite (decide_False (P := Status x = Live))
      by (apply (Forall_lookup_1 _ _ _ _ Hno Hk)).
    rewrite decide_False; [done|]. intros [Heq _]. apply Hkj.
    by apply (distinct_lookup _ _ _ _ _ Hd Hk HB).
Qed.

Lemma Approve_before_live f i j A B :
  distinctIDs f → onlyLiveAt (Revisions f) i A →
  Revisions f !! j = Some B → Status B = Draft → (j < i)%nat →
  Revisions (Approve (ID B) f)
  = <[i := setStatus Archived A]>
      (<[j := setLastRevisionID NilObjectID (setStatus Live B)]> (Revisions f)).
Proof.
  intros Hd HA HB HBd Hji. pose proof HA as (Hi & HAl & _).
  apply list_eq. intros k.
  rewrite Approve_lookup, (onlyLiveAt_carried_take _ _ _ _ _ _ HA).
  destruct (decide (k = i)) as [->|Hki].
  - rewrite list_lookup_insert_eq
      by (rewrite length_insert; by eapply lookup_lt_Some).
    rewrite Hi. simpl. f_equal. unfold approveElem.
    by rewrite (decide_True (P := Status A = Live)).
  - rewrite list_lookup_insert_ne by done.
    destruct (decide (k = j)) as [->|Hkj].
    + rewrite list_lookup_insert_eq by (by eapply lookup_lt_Some).
      rewrite HB. simpl. f_equal.
      rewrite (decide_False (P := (i < j)%nat)) by lia. unfold approveElem.
      rewrite (decide_False (P := Status B = Live)) by congruence.
      by rewrite decide_True.
    + rewrite list_lookup_insert_ne by done.
      destruct (Revisions f !! k) as [x|] eqn:Hk; simpl; [|done]. f_equal.
      unfold approveElem.
      rewrite (decide_False (P := Status x = Live))
        by (by eapply onlyLiveAt_other).
      rewrite (decide_False (P := ID x = ID B ∧ Status x = Draft)); [done|].
      intros [Heq _]. apply Hkj.
      by apply (distinct_lookup _ _ _ _ _ Hd Hk HB).
Qed.

Lemma Rollback_restores f i j L T :
  distinctIDs f → onlyLiveAt (Revisions f) i L →
  Revisions f !! j = Some T → ID T = LastRevisionID L → Status T = Archived →
  Revisions (Rollback f)
  = <[j := setStatus Live T]>
      (<[i := setLastRevisionID NilObjectID (setStatus Draft L)]> (Revisions f)).
Proof.
  intros Hd HL HT Hid HTs. pose proof HL as (Hi & Hl & _).
  assert (Hij : j ≠ i) by (intros ->; congruence).
  rewrite (Rollback_onlyLive _ _ _ HL).
  rewrite (fmap_one_slot _ _ j T).
  - unfold restoreElem. by rewrite decide_True.
  - by rewrite list_lookup_insert_ne.
  - intros k y Hk Hkj. unfold restoreElem. rewrite decide_False; [done|].
    intros [Heq Har].
    apply list_lookup_insert_Some in Hk as [(-> & <- & _)|[Hne Hk]].
    + discriminate Har.
    + apply Hkj. apply (distinct_lookup _ _ _ _ _ Hd Hk HT). congruence.
Qed.

Lemma Rollback_unlinked f i L :
  onlyLiveAt (Revisions f) i L → LastRevisionID L = NilObjectID →
  Forall (λ r, ¬ (ID r = NilObjectID ∧ Status r = Archived)) (Revisions f) →
  Revisions (Rollback f) = <[i := setStatus Draft L]> (Revisions f).
Proof.
  intros HL Hnil Hids. pose proof HL as (Hi & Hl & _).
  rewrite (Rollback_onlyLive _ _ _ HL), Hnil.
  replace (setLastRevisionID NilObjectID (setStatus Draft L))
    with (setStatus Draft L) by (destruct L; simpl in *; by subst).
  apply fmap_no_slot, Forall_lookup. intros k r Hk. unfold restoreElem.
  rewrite decide_False; [done|]. intros [Heq Har].
  apply list_lookup_insert_Some in Hk as [(-> & <- & _)|[Hne Hk]].
  - discriminate Har.
  - by apply (Forall_lookup_1 _ _ _ _ Hids Hk).
Qed.

Lemma liveCount_onlyLiveAt rs i L : onlyLiveAt rs i L → liveCount rs = 1%nat.
Proof.
  intros H. pose proof H as (Hi & HL & _).
  rewrite <- (take_drop_middle rs i L Hi). unfold liveCount.
  rewrite filter_app, filter_cons_True, length_app by done. simpl.
  fold (liveCount (take i rs)). fold (liveCount (drop (Datatypes.S i) rs)).
  rewrite (liveCount_none (take i rs))
    by (by apply (onlyLiveAt_before _ _ _ _ H)).
  by rewrite (liveCount_none _ (onlyLiveAt_after _ _ _ H)).
Qed.

(** X11. First approval: on a flag with no Live revision, approving a
    Draft makes it the only Live revision, with no link, leaves every other
    revision as it was and increments the version. *)
Theorem first_approval (f : FeatureFlagRecord) (j : nat) (B : Revision) :
  distinctIDs f → Forall (λ r, Status r ≠ Live) (Revisions f) →
  Revisions f !! j = Some B → Status B = Draft →
  Revisions (Approve (ID B) f)
  = <[j := setLastRevisionID NilObjectID (setStatus Live B)]> (Revisions f) ∧
  onlyLiveAt (Revisions (Approve (ID B) f)) j
    (setLastRevisionID NilObjectID (setStatus Live B)) ∧
  liveCount (Revisions (Approve (ID B) f)) = 1%nat ∧
  Version (Approve (ID B) f) = Version f + 1.
Proof.
  intros Hd Hno HB HBd.
  assert (Hon : onlyLiveAt (Revisions (Approve (ID B) f)) j
                  (setLastRevisionID NilObjectID (setStatus Live B))).
  { rewrite (Approve_first _ _ _ Hno Hd HB HBd).
    apply onlyLiveAt_insert; [by eapply lookup_lt_Some|done|].
    intros k r Hk _. apply (Forall_lookup_1 _ _ _ _ Hno Hk). }
  split; [by apply Approve_first|]. split; [done|].
  split; [by eapply liveCount_onlyLiveAt | apply Approve_Version].
Qed.

Lemma first_approval_witness :
  let f := Sample.flag 1 [Sample.revision 1 Draft 0] in
  Revisions (Approve 1%N f) = [Sample.revision 1 Live 0] ∧
  Version (Approve 1%N f) = 2.
Proof.
  intros f.
  assert (Hd : distinctIDs f)
    by (apply (bool_decide_unpack _); vm_compute; exact I).
  assert (Hno : Forall (λ r, Status r ≠ Live) (Revisions f))
    by (repeat constructor; simpl; discriminate).
  destruct (first_approval f 0 (Sample.revision 1 Draft 0) Hd Hno eq_refl
              eq_refl) as (H1 & _ & _ & H2).
  split; [exact H1 | exact H2].
Defined.

Lemma onlyLiveAt_approved f i j A B :
  distinctIDs f → onlyLiveAt (Revisions f) i A →
  Revisions f !! j = Some B → Status B = Draft → (i < j)%nat →
  onlyLiveAt (Revisions (Approve (ID B) f)) j
    (setLastRevisionID (ID A) (setStatus Live B)).
Proof.
  intros Hd HA HB HBd Hij. pose proof HA as (Hi & _ & _).
  rewrite (Approve_after_live f i j A B Hd HA HB HBd Hij).
  apply onlyLiveAt_insert;
    [rewrite length_insert; by eapply lookup_lt_Some|done|].
  intros k r Hk Hkj.
  apply list_lookup_insert_Some in Hk as [(_ & <- & _)|[Hne Hk]]; [done|].
  by eapply onlyLiveAt_other.
Qed.

Lemma Rollback_Approve_after_live f i j A B :
  distinctIDs f → onlyLiveAt (Revisions f) i A →
  Revisions f !! j = Some B → Status B = Draft → (i < j)%nat →
  Revisions (Rollback (Approve (ID B) f))
  = <[j := setLastRevisionID NilObjectID B]> (Revisions f).
Proof.
  intros Hd HA HB HBd Hij. pose proof HA as (Hi & HAl & _).
  pose proof (onlyLiveAt_approved f i j A B Hd HA HB HBd Hij) as HB'.
  assert (Hd' : distinctIDs (Approve (ID B) f))
    by (unfold distinctIDs; by rewrite Approve_IDs).
  assert (HA' : Revisions (Approve (ID B) f) !! i = Some (setStatus Archived A)).
  { rewrite (Approve_after_live f i j A B Hd HA HB HBd Hij).
    rewrite list_lookup_insert_ne by lia.
    apply list_lookup_insert_eq. by eapply lookup_lt_Some. }
  rewrite (Rollback_restores _ j i _ _ Hd' HB' HA' eq_refl eq_refl).
  rewrite (Approve_after_live f i j A B Hd HA HB HBd Hij).
  rewrite list_insert_insert_eq.
  rewrite (list_insert_insert_ne _ i j) by lia.
  rewrite list_insert_insert_eq.
  replace (setStatus Live (setStatus Archived A)) with A
    by (destruct A; simpl in *; by subst).
  rewrite (list_insert_id _ i A Hi). f_equal.
  destruct B; simpl in *; by subst.
Qed.

(** X12. The usual promotion: a Draft with a fresh id is pushed onto a
    flag whose only Live revision is [A] and is then approved. The new
    revision becomes Live and links to [A], [A] is archived, nothing else
    changes; a Rollback right after gives back the flag with the pushed
    Draft, and the version it had. *)
Theorem push_then_approve (f : FeatureFlagRecord) (i : nat) (A B : Revision) :
  distinctIDs f → onlyLiveAt (Revisions f) i A →
  ID B ∉ ID <$> Revisions f → Status B = Draft →
  Revisions (Approve (ID B) (PushRevision B f))
  = <[i := setStatus Archived A]> (Revisions f)
    ++ [setLastRevisionID (ID A) (setStatus Live B)] ∧
  Revisions (Rollback (Approve (ID B) (PushRevision B f)))
  = Revisions f ++ [setLastRevisionID NilObjectID B] ∧
  Version (Rollback (Approve (ID B) (PushRevision B f))) = Version f.
Proof.
  intros Hd HA Hfresh HBd. pose proof HA as (Hi & HAl & Hu).
  pose proof (lookup_lt_Some _ _ _ Hi) as Hilen.
  assert (Hd' : distinctIDs (PushRevision B f))
    by (by apply PushRevision_distinctIDs).
  assert (HA' : onlyLiveAt (Revisions (PushRevision B f)) i A).
  { simpl. split; [by rewrite lookup_app_l|]. split; [done|].
    intros k r Hk Hr. apply lookup_snoc_Some in Hk as [[_ Hk]|[_ <-]].
    - by apply (Hu k r).
    - congruence. }
  assert (HB' : Revisions (PushRevision B f) !! length (Revisions f) = Some B)
    by (simpl; by apply list_lookup_middle).
  split; [|split].
  - rewrite (Approve_after_live _ i _ A B Hd' HA' HB' HBd Hilen). simpl.
    rewrite insert_app_l by done.
    rewrite <- (length_insert (Revisions f) i (setStatus Archived A)) at 1.
    replace (length (<[i:=setStatus Archived A]> (Revisions f)))
      with (length (<[i:=setStatus Archived A]> (Revisions f)) + 0)%nat by lia.
    by rewrite insert_app_r.
  - rewrite (Rollback_Approve_after_live _ i _ A B Hd' HA' HB' HBd Hilen).
    simpl.
    replace (length (Revisions f)) with (length (Revisions f) + 0)%nat by lia.
    by rewrite insert_app_r.
  - rewrite Rollback_Version, Approve_Version. simpl. lia.
Qed.

Lemma push_then_approve_witness :
  let f := Sample.flag 2 [Sample.revision 1 Live 0] in
  Revisions (Approve 2%N (PushRevision (Sample.revision 2 Draft 0) f))
  = [Sample.revision 1 Archived 0; Sample.revision 2 Live 1].
Proof.
  intros f.
  assert (Hd : distinctIDs f)
    by (apply (bool_decide_unpack _); vm_compute; exact I).
  assert (HA : onlyLiveAt (Revisions f) 0 (Sample.revision 1 Live 0)).
  { split; [reflexivity|]. split; [reflexivity|].
    intros [|k] r Hk Hr; simpl in Hk; [reflexivity | discriminate]. }
  assert (Hfresh : ID (Sample.revision 2 Draft 0) ∉ ID <$> Revisions f).
  { simpl. intros H. apply list_elem_of_singleton in H. discriminate H. }
  destruct (push_then_approve f 0 _ (Sample.revision 2 Draft 0) Hd HA Hfresh
              eq_refl) as (H1 & _).
  exact H1.
Defined.

(** X13. Rollback with no history: when the only Live revision has no
    link (and no Archived revision carries the nil id), Rollback makes it
    a Draft and restores nothing, so that no revision is Live, and the
    version is decremented all the same. *)
Theorem rollback_without_history (f : FeatureFlagRecord) (i : nat)
    (L : Revision) :
  onlyLiveAt (Revisions f) i L → LastRevisionID L = NilObjectID →
  Forall (λ r, ¬ (ID r = NilObjectID ∧ Status r = Archived)) (Revisions f) →
  Revisions (Rollback f) = <[i := setStatus Draft L]> (Revisions f) ∧
  liveCount (Revisions (Rollback f)) = 0%nat ∧
  Version (Rollback f) = Version f - 1.
Proof.
  intros HL Hnil Hids. rewrite (Rollback_unlinked _ _ _ HL Hnil Hids).
  split; [done|]. split; [|apply Rollback_Version].
  apply liveCount_none, Forall_lookup. intros k r Hk.
  apply list_lookup_insert_Some in Hk as [(-> & <- & _)|[Hne Hk]].
  - simpl. discriminate.
  - by eapply onlyLiveAt_other.
Qed.

Lemma rollback_without_history_witness :
  let f := Sample.flag 2 [Sample.revision 1 Live 0] in
  Revisions (Rollback f) = [Sample.revision 1 Draft 0] ∧
  Version (Rollback f) = 1.
Proof.
  intros f.
  assert (HL : onlyLiveAt (Revisions f) 0 (Sample.revision 1 Live 0)).
  { split; [reflexivity|]. split; [reflexivity|].
    intros [|k] r Hk Hr; simpl in Hk; [reflexivity | discriminate]. }
  assert (Hids : Forall (λ r, ¬ (ID r = NilObjectID ∧ Status r = Archived))
                   (Revisions f))
    by (repeat constructor; simpl; intros [H _]; discriminate H).
  destruct (rollback_without_history f 0 _ HL eq_refl Hids) as (H1 & _ & H2).
  split; [exact H1 | exact H2].
Defined.

(** X14. Rollback along the link: when the only Live revision [L] links
    to an Archived revision [T], Rollback makes [L] a Draft with no link
    and [T] the only Live revision, leaves the link of [T] and every other
    revision as they were, and decrements the version. *)
Theorem rollback_restores_predecessor (f : FeatureFlagRecord) (i j : nat)
    (L T : Revision) :
  distinctIDs f → onlyLiveAt (Revisions f) i L →
  Revisions f !! j = Some T → ID T = LastRevisionID L → Status T = Archived →
  Revisions (Rollback f)
  = <[j := setStatus Live T]>
      (<[i := setLastRevisionID NilObjectID (setStatus Draft L)]>
         (Revisions f)) ∧
  onlyLiveAt (Revisions (Rollback f)) j (setStatus Live T) ∧
  Version (Rollback f) = Version f - 1.
Proof.
  intros Hd HL HT Hid HTs. pose proof HL as (Hi & Hl & _).
  rewrite (Rollback_restores _ _ _ _ _ Hd HL HT Hid HTs).
  split; [done|]. split; [|apply Rollback_Version].
  apply onlyLiveAt_insert;
    [rewrite length_insert; by eapply lookup_lt_Some|done|].
  intros k r Hk Hkj.
  apply list_lookup_insert_Some in Hk as [(_ & <- & _)|[Hne Hk]]; [done|].
  by eapply onlyLiveAt_other.
Qed.

Lemma rollback_restores_predecessor_witness :
  let f := Sample.flag 3
             [Sample.revision 1 Archived 0; Sample.revision 2 Live 1] in
  Revisions (Rollback f)
  = [Sample.revision 1 Live 0; Sample.revision 2 Draft 0] ∧
  Version (Rollback f) = 2.
Proof.
  intros f.
  assert (Hd : distinctIDs f)
    by (apply (bool_decide_unpack _); vm_compute; exact I).
  assert (HL : onlyLiveAt (Revisions f) 1 (Sample.revision 2 Live 1)).
  { split; [reflexivity|]. split; [reflexivity|].
    intros [|[|k]] r Hk Hr; simpl in Hk; [|reflexivity|discriminate].
    injection Hk as <-. discriminate Hr. }
  destruct (rollback_restores_predecessor f 1 0 _
              (Sample.revision 1 Archived 0) Hd HL eq_refl eq_refl eq_refl)
    as (H1 & _ & H2).
  split; [exact H1 | exact H2].
Defined.

(** X15. The link written by Approve is the id of the Live revision
    met last before the target in the sequence, and nil when no Live
    revision comes before the target, however many revisions are Live and
    whatever the ids are. *)
Theorem approve_links_latest_live (f : FeatureFlagRecord)
    (pre post : list Revision) (B : Revision) :
  Revisions f = pre ++ B :: post → Status B = Draft →
  ∃ link,
    Revisions (Approve (ID B) f) !! length pre
    = Some (setLastRevisionID link (setStatus Live B)) ∧
    (Forall (λ r, Status r ≠ Live) pre → link = NilObjectID) ∧
    (∀ pre' L mid, pre = pre' ++ L :: mid → Status L = Live →
       Forall (λ r, Status r ≠ Live) mid → link = ID L).
Proof.
  intros Hrev HBd. exists (carried ID NilObjectID pre). split; [|split].
  - rewrite Approve_lookup, Hrev, take_app_length.
    rewrite list_lookup_middle by done. simpl. f_equal. unfold approveElem.
    rewrite (decide_False (P := Status B = Live)) by congruence.
    by rewrite decide_True.
  - apply carried_none.
  - intros pre' L mid -> HL Hmid. unfold carried. rewrite foldl_app. simpl.
    unfold liveNext at 2. rewrite decide_True by done.
    by apply (carried_none ID).
Qed.

Lemma approve_links_latest_live_witness :
  let f := Sample.flag 2
             [Sample.revision 1 Live 0; Sample.revision 2 Live 0;
              Sample.revision 3 Draft 0] in
  ∃ link, Revisions (Approve 3%N f) !! 2%nat
          = Some (setLastRevisionID link (setStatus Live (Sample.revision 3 Draft 0)))
          ∧ link = 2%N.
Proof.
  intros f.
  destruct (approve_links_latest_live f
              [Sample.revision 1 Live 0; Sample.revision 2 Live 0] []
              (Sample.revision 3 Draft 0) eq_refl eq_refl)
    as (link & H1 & _ & H2).
  exists link. split; [exact H1|].
  apply (H2 [Sample.revision 1 Live 0] (Sample.revision 2 Live 0) []);
    [reflexivity | reflexivity | constructor].
Defined.

(** X16. When the Draft that is approved comes before the only Live
    revision [A] in the sequence, it becomes Live with a nil link while
    [A] is archived; a Rollback right after then restores nothing (ids not
    being nil): the target is a Draft again, [A] stays Archived, no
    revision is Live, and the version is back to what it was. *)
Theorem approve_draft_preceding_live (f : FeatureFlagRecord) (i j : nat)
    (A B : Revision) :
  distinctIDs f → onlyLiveAt (Revisions f) i A →
  Revisions f !! j = Some B → Status B = Draft → (j < i)%nat →
  Forall (λ r, ID r ≠ NilObjectID) (Revisions f) →
  Revisions (Approve (ID B) f)
  = <[i := setStatus Archived A]>
      (<[j := setLastRevisionID NilObjectID (setStatus Live B)]>
         (Revisions f)) ∧
  Revisions (Rollback (Approve (ID B) f))
  = <[i := setStatus Archived A]>
      (<[j := setLastRevisionID NilObjectID B]> (Revisions f)) ∧
  liveCount (Revisions (Rollback (Approve (ID B) f))) = 0%nat ∧
  Version (Rollback (Approve (ID B) f)) = Version f.
Proof.
  intros Hd HA HB HBd Hji Hids. pose proof HA as (Hi & HAl & _).
  pose proof (lookup_lt_Some _ _ _ Hi) as Hilen.
  pose proof (lookup_lt_Some _ _ _ HB) as Hjlen.
  pose proof (Approve_before_live f i j A B Hd HA HB HBd Hji) as Hap.
  set (B' := setLastRevisionID NilObjectID (setStatus Live B)) in *.
  assert (HB' : onlyLiveAt (Revisions (Approve (ID B) f)) j B').
  { rewrite Hap. split; [|split; [done|]].
    - rewrite list_lookup_insert_ne by lia. by apply list_lookup_insert_eq.
    - intros k r Hk Hr. destruct (decide (k = j)) as [|Hkj]; [done|].
      apply list_lookup_insert_Some in Hk as [(_ & <- & _)|[Hne Hk]];
        [discriminate Hr|].
      rewrite list_lookup_insert_ne in Hk by done.
      exfalso. by eapply (onlyLiveAt_other _ _ _ _ _ HA Hk). }
  assert (Hids' : Forall (λ r, ¬ (ID r = NilObjectID ∧ Status r = Archived))
                    (Revisions (Approve (ID B) f))).
  { apply Forall_forall. intros r Hr [Hnil _].
    apply (list_elem_of_fmap_2 ID) in Hr. rewrite Approve_IDs in Hr.
    apply list_elem_of_fmap in Hr as (r0 & Heq & Hr0).
    apply (proj1 (Forall_forall _ _) Hids r0 Hr0). congruence. }
  assert (Hrb : Revisions (Rollback (Approve (ID B) f))
                = <[i := setStatus Archived A]>
                    (<[j := setLastRevisionID NilObjectID B]> (Revisions f))).
  { rewrite (Rollback_unlinked _ _ _ HB' eq_refl Hids'), Hap.
    rewrite (list_insert_insert_ne _ j i) by lia.
    rewrite list_insert_insert_eq.
    replace (setStatus Draft B') with (setLastRevisionID NilObjectID B);
      [done|]. unfold B'. destruct B; simpl in *; by subst. }
  split; [done|]. split; [done|]. split.
  - rewrite Hrb. apply liveCount_none, Forall_lookup. intros k r Hk.
    apply list_lookup_insert_Some in Hk as [(_ & <- & _)|[Hne Hk]];
      [simpl; discriminate|].
    apply list_lookup_insert_Some in Hk as [(_ & <- & _)|[Hne' Hk]];
      [simpl; congruence|].
    apply (onlyLiveAt_other _ _ _ _ _ HA Hk). congruence.
  - rewrite Rollback_Version, Approve_Version. lia.
Qed.

Lemma approve_draft_preceding_live_witness :
  let f := Sample.flag 2 [Sample.revision 1 Draft 0; Sample.revision 2 Live 0] in
  Revisions (Rollback (Approve 1%N f))
  = [Sample.revision 1 Draft 0; Sample.revision 2 Archived 0] ∧
  liveCount (Revisions (Rollback (Approve 1%N f))) = 0%nat.
Proof.
  intros f.
  assert (Hd : distinctIDs f)
    by (apply (bool_decide_unpack _); vm_compute; exact I).
  assert (HA : onlyLiveAt (Revisions f) 1 (Sample.revision 2 Live 0)).
  { split; [reflexivity|]. split; [reflexivity|].
    intros [|[|k]] r Hk Hr; simpl in Hk; [|reflexivity|discriminate].
    injection Hk as <-. discriminate Hr. }
  assert (Hids : Forall (λ r, ID r ≠ NilObjectID) (Revisions f))
    by (repeat constructor; simpl; discriminate).
  destruct (approve_draft_preceding_live f 1 0 _ (Sample.revision 1 Draft 0)
              Hd HA eq_refl eq_refl (Nat.lt_0_succ 0) Hids)
    as (_ & H1 & H2 & _).
  split; [exact H1 | exact H2].
Defined.

(** X17. Two promotions in creation order can be undone by two rollbacks:
    with [A] the only Live revision and the Drafts [B] and [C] after it in
    that order, Approve([B]), Approve([C]), Rollback, Rollback first makes
    [B] Live again and then [A], and ends on the flag it started from with
    the links of [B] and [C] cleared and the version it had. *)
Theorem two_approvals_two_rollbacks (f : FeatureFlagRecord) (i j k : nat)
    (A B C : Revision) :
  distinctIDs f → onlyLiveAt (Revisions f) i A →
  Revisions f !! j = Some B → Status B = Draft →
  Revisions f !! k = Some C → Status C = Draft →
  (i < j)%nat → (j < k)%nat →
  Revisions (Rollback (Approve (ID C) (Approve (ID B) f)))
  = <[k := setLastRevisionID NilObjectID C]> (Revisions (Approve (ID B) f)) ∧
  Revisions (Rollback (Rollback (Approve (ID C) (Approve (ID B) f))))
  = <[k := setLastRevisionID NilObjectID C]>
      (<[j := setLastRevisionID NilObjectID B]> (Revisions f)) ∧
  Version (Rollback (Rollback (Approve (ID C) (Approve (ID B) f))))
  = Version f.
Proof.
  intros Hd HA HB HBd HC HCd Hij Hjk. pose proof HA as (Hi & HAl & _).
  pose proof (lookup_lt_Some _ _ _ Hi) as Hilen.
  pose proof (lookup_lt_Some _ _ _ HB) as Hjlen.
  pose proof (Approve_after_live f i j A B Hd HA HB HBd Hij) as Hap.
  pose proof (onlyLiveAt_approved f i j A B Hd HA HB HBd Hij) as HB1.
  set (f1 := Approve (ID B) f) in *.
  set (A' := setStatus Archived A) in *.
  set (B' := setLastRevisionID (ID A) (setStatus Live B)) in *.
  set (Cc := setLastRevisionID NilObjectID C).
  assert (Hd1 : distinctIDs f1)
    by (unfold distinctIDs, f1; by rewrite Approve_IDs).
  assert (HC1 : Revisions f1 !! k = Some C)
    by (rewrite Hap, !list_lookup_insert_ne by lia; done).
  pose proof (Rollback_Approve_after_live f1 j k B' C Hd1 HB1 HC1 HCd Hjk)
    as Hr1.
  fold Cc in Hr1. split; [exact Hr1|].
  set (f3 := Rollback (Approve (ID C) f1)) in *.
  assert (Hd3 : distinctIDs f3)
    by (unfold distinctIDs, f3; by rewrite Rollback_IDs, Approve_IDs).
  assert (HB3 : onlyLiveAt (Revisions f3) j B').
  { rewrite Hr1. destruct HB1 as (HBl & HBs & HBu). split; [|split; [done|]].
    - by rewrite list_lookup_insert_ne by lia.
    - intros m r Hm Hr.
      apply list_lookup_insert_Some in Hm as [(_ & <- & _)|[Hne Hm]].
      + unfold Cc in Hr. simpl in Hr. congruence.
      + by apply (HBu m r). }
  assert (HA3 : Revisions f3 !! i = Some A').
  { rewrite Hr1, Hap, !list_lookup_insert_ne by lia.
    by apply list_lookup_insert_eq. }
  split.
  - rewrite (Rollback_restores f3 j i B' A' Hd3 HB3 HA3 eq_refl eq_refl).
    rewrite Hr1, Hap.
    rewrite (list_insert_insert_ne _ j k) by lia.
    rewrite list_insert_insert_eq.
    rewrite (list_insert_insert_ne _ i k) by lia.
    rewrite (list_insert_insert_ne _ i j) by lia.
    rewrite list_insert_insert_eq.
    replace (setStatus Live A') with A
      by (unfold A'; destruct A; simpl in *; by subst).
    rewrite (list_insert_id _ i A Hi). do 2 f_equal.
    unfold B'. destruct B; simpl in *; by subst.
  - unfold f3, f1. rewrite !Rollback_Version, !Approve_Version. lia.
Qed.

Lemma two_approvals_two_rollbacks_witness :
  let f := Sample.flag 2
             [Sample.revision 1 Live 0; Sample.revision 2 Draft 0;
              Sample.revision 3 Draft 0] in
  Revisions (Rollback (Rollback (Approve 3%N (Approve 2%N f)))) = Revisions f ∧
  Version (Rollback (Rollback (Approve 3%N (Approve 2%N f)))) = 2.
Proof.
  intros f.
  assert (Hd : distinctIDs f)
    by (apply (bool_decide_unpack _); vm_compute; exact I).
  assert (HA : onlyLiveAt (Revisions f) 0 (Sample.revision 1 Live 0)).
  { split; [reflexivity|]. split; [reflexivity|].
    intros [|[|[|m]]] r Hm Hr; simpl in Hm; [reflexivity| | |discriminate];
      injection Hm as <-; discriminate Hr. }
  destruct (two_approvals_two_rollbacks f 0 1 2 _ (Sample.revision 2 Draft 0)
              (Sample.revision 3 Draft 0) Hd HA eq_refl eq_refl eq_refl
              eq_refl (Nat.lt_0_succ 0) (Nat.lt_succ_diag_r 1))
    as (_ & H1 & H2).
  split; [exact H1 | exact H2].
Defined.

(** ** What the handlers answer and what they write *)

Ltac handler_cases :=
  unfold ApproveRevision, RollbackFeatureFlagVersion, ToggleFeatureFlag,
    authorize, persist, reject;
  repeat case_match; simpl.

(** X18. A request the lifecycle and toggle handlers refuse with any
    status other than 500 has written nothing to the feature-flag
    collection. *)
Theorem refusals_write_nothing (o : Outcomes) (p : option ObjectID)
    (env : string) (code : Z) (m : ApiError) :
  code ≠ StatusInternalServerError →
  (response (ApproveRevision o p) = CustomError code m →
   written (ApproveRevision o p) = None) ∧
  (response (RollbackFeatureFlagVersion o) = CustomError code m →
   written (RollbackFeatureFlagVersion o) = None) ∧
  (response (ToggleFeatureFlag o env) = CustomError code m →
   written (ToggleFeatureFlag o env) = None).
Proof.
  intros Hc. split; [|split]; handler_cases; intros; congruence.
Qed.

Lemma refusals_write_nothing_witness :
  written (ApproveRevision
             (mkOutcomes (Some 9%N) (Some 200%N) true false (Some 100%N) None
                true true) (Some 1%N)) = None.
Proof.
  assert (Hc : StatusUnauthorized ≠ StatusInternalServerError) by discriminate.
  exact (proj1 (refusals_write_nothing
                  (mkOutcomes (Some 9%N) (Some 200%N) true false (Some 100%N)
                     None true true)
                  (Some 1%N) EmptyString StatusUnauthorized UnauthorizedError
                  Hc) eq_refl).
Defined.

(** X19. When one of these handlers answers with a flag, the status is
    200, the flag is the transformation of the flag that was found
    (Approve needs a well-formed revision id for that), and that same flag
    is what the collection holds afterwards. *)
Theorem answered_flag_is_stored (o : Outcomes) (f body : FeatureFlagRecord)
    (p : option ObjectID) (env : string) (code : Z) :
  featureFlagFound o = Some f →
  (response (ApproveRevision o p) = JSON code body →
   code = StatusOK ∧ stored f (ApproveRevision o p) = body ∧
   ∃ revisionID, p = Some revisionID ∧ body = Approve revisionID f) ∧
  (response (RollbackFeatureFlagVersion o) = JSON code body →
   code = StatusOK ∧ stored f (RollbackFeatureFlagVersion o) = body ∧
   body = Rollback f) ∧
  (response (ToggleFeatureFlag o env) = JSON code body →
   code = StatusOK ∧ stored f (ToggleFeatureFlag o env) = body ∧
   body = Toggle env f).
Proof.
  intros Hf. split; [|split]; unfold stored; handler_cases;
    intros ?; simplify_eq/=; eauto.
Qed.

Lemma answered_flag_is_stored_witness :
  let f := Sample.flag 1 [Sample.revision 1 Draft 0] in
  stored f (ApproveRevision (Sample.answers f) (Some 1%N)) = Approve 1%N f.
Proof.
  intros f.
  destruct (proj1 (answered_flag_is_stored (Sample.answers f) f (Approve 1%N f)
                     (Some 1%N) EmptyString 200 eq_refl) eq_refl)
    as (_ & H & _).
  exact H.
Defined.



(** X21. The statuses of a refusal: ApproveRevision refuses with 400, 401
    or 500 and never with 403, RollbackFeatureFlagVersion and
    ToggleFeatureFlag refuse with 400, 403 or 500 and never with 401, and
    each status comes with its own message. *)
Theorem refusal_statuses (o : Outcomes) (p : option ObjectID) (env : string)
    (code : Z) (m : ApiError) :
  (response (ApproveRevision o p) = CustomError code m →
   (code, m) ∈ [(StatusBadRequest, BadRequestError);
                (StatusUnauthorized, UnauthorizedError);
                (StatusInternalServerError, InternalServerError)]) ∧
  (response (RollbackFeatureFlagVersion o) = CustomError code m →
   (code, m) ∈ [(StatusBadRequest, BadRequestError);
                (StatusForbidden, ForbiddenError);
                (StatusInternalServerError, InternalServerError)]) ∧
  (response (ToggleFeatureFlag o env) = CustomError code m →
   (code, m) ∈ [(StatusBadRequest, BadRequestError);
                (StatusForbidden, ForbiddenError);
                (StatusInternalServerError, InternalServerError)]).
Proof.
  split; [|split]; handler_cases; intros ?; simplify_eq;
    repeat (first [apply list_elem_of_here | apply list_elem_of_further]).
Qed.

Lemma refusal_statuses_witness :
  let o := mkOutcomes (Some 9%N) (Some 200%N) true false (Some 100%N) None
             true true in
  (StatusUnauthorized, UnauthorizedError)
  ∈ [(StatusBadRequest, BadRequestError);
     (StatusUnauthorized, UnauthorizedError);
     (StatusInternalServerError, InternalServerError)] ∧
  response (RollbackFeatureFlagVersion o)
  ≠ CustomError StatusUnauthorized UnauthorizedError.
Proof.
  intros o. split.
  - exact (proj1 (refusal_statuses o None EmptyString StatusUnauthorized
                    UnauthorizedError) eq_refl).
  - intros H.
    pose proof (proj1 (proj2 (refusal_statuses o None EmptyString
                                StatusUnauthorized UnauthorizedError)) H) as Hin.
    repeat (apply elem_of_cons in Hin as [Hin|Hin]; [discriminate Hin|]).
    by apply elem_of_nil in Hin.
Defined.

(** ** The handlers that create, extend and delete a flag *)

Lemma required_spec s : required s = true ↔ s ≠ EmptyString.
Proof.
  unfold required. rewrite negb_true_iff. apply String.eqb_neq.
Qed.

Lemma validatePost_spec ruleValid request :
  validatePost ruleValid request = true ↔
  reqName request ≠ EmptyString ∧
  reqType request ∈ ["boolean"; "json"; "string"; "number"] ∧
  reqDefaultValue request ≠ EmptyString ∧
  Forall (λ rule, ruleValid rule = true) (reqRules request) ∧
  reqEnvironment request ≠ EmptyString.
Proof.
  unfold validatePost, oneofFlagType.
  rewrite !andb_true_iff, !required_spec, bool_decide_eq_true.
  rewrite forallb_forall, Forall_forall.
  setoid_rewrite <- list_elem_of_In. split.
  - intros ((((Hn & Ht & Ho) & Hv) & Hr) & He). done.
  - intros (Hn & Ho & Hv & Hr & He). repeat split; try done.
    intros Heq. rewrite Heq in Ho.
    repeat (apply elem_of_cons in Ho as [Ho|Ho]; [discriminate Ho|]).
    by apply elem_of_nil in Ho.
Qed.

(** X22. Nothing is written for a caller without permission: unless the
    user and the organization are read from the context, the organization
    is found and the permission check passes, none of the six handlers
    that change a flag writes anything, whatever the request carries. *)
Theorem no_write_without_permission
    (NewFeatureFlagRecord : string → string → string → list Rule →
                            ObjectID → ObjectID → string → FeatureFlagRecord)
    (NewRevisionRecord : string → list Rule → ObjectID → Revision)
    (ruleValid : Rule → bool) (o : Outcomes) (p : option ObjectID)
    (env : string) (post : option PostFeatureFlagRequest)
    (insertOne : option ObjectID) (timelineInsertOne : bool)
    (patch : option PatchFeatureFlagRequest) (now : Z) :
  ¬ (is_Some (userFromContext o) ∧ is_Some (organizationFromContext o) ∧
     organizationFound o = true ∧ permission o = true) →
  written (ApproveRevision o p) = None ∧
  written (RollbackFeatureFlagVersion o) = None ∧
  written (ToggleFeatureFlag o env) = None ∧
  (PostFeatureFlag NewFeatureFlagRecord ruleValid o post insertOne
     timelineInsertOne).1 = [] ∧
  (PatchFeatureFlag NewRevisionRecord o patch).1 = [] ∧
  (DeleteFeatureFlag o now).1 = [].
Proof.
  intros Hno.
  unfold ApproveRevision, RollbackFeatureFlagVersion, ToggleFeatureFlag,
    authorize, PostFeatureFlag, PatchFeatureFlag, DeleteFeatureFlag.
  destruct (userFromContext o) as [u|]; [|done].
  destruct (organizationFromContext o) as [g|]; [|done].
  destruct (organizationFound o); [|done].
  destruct (permission o); [|done].
  destruct Hno. eauto.
Qed.

Lemma no_write_without_permission_witness :
  (DeleteFeatureFlag
     (mkOutcomes (Some 9%N) (Some 200%N) true false (Some 100%N) None true true)
     0).1 = [].
Proof.
  assert (Hno : ¬ (is_Some (Some 9%N) ∧ is_Some (Some 200%N) ∧
                   true = true ∧ false = true))
    by (intros (_ & _ & _ & H); discriminate H).
  exact (proj2 (proj2 (proj2 (proj2 (proj2
    (no_write_without_permission
       (λ _ _ _ _ _ _ _, Sample.flag 1 []) (λ _ _ _, Sample.revision 1 Draft 0)
       (λ _, true)
       (mkOutcomes (Some 9%N) (Some 200%N) true false (Some 100%N) None
          true true)
       None EmptyString None None true None 0 Hno)))))).
Defined.

(** X23. PostFeatureFlag inserts only what the validator accepted: a
    flag that reaches the collection was built from a request with a name,
    a default value and an environment that are not empty and a type among
    boolean, json, string and number. The answer is 201 only once the
    flag, its timeline and the first timeline entry are all written; when
    the flag is inserted and the answer is a refusal, the refusal is a 400
    if the timeline could not be created and a 500 if its first entry
    could not be appended. *)
Theorem post_feature_flag_effects
    (NewFeatureFlagRecord : string → string → string → list Rule →
                            ObjectID → ObjectID → string → FeatureFlagRecord)
    (ruleValid : Rule → bool) (o : Outcomes)
    (post : option PostFeatureFlagRequest) (insertOne : option ObjectID)
    (timelineInsertOne : bool) :
  let r := PostFeatureFlag NewFeatureFlagRecord ruleValid o post insertOne
             timelineInsertOne in
  (∀ record, FlagInserted record ∈ r.1 →
     ∃ request userID organizationID,
       post = Some request ∧
       record = NewFeatureFlagRecord (reqName request)
                  (reqDefaultValue request) (reqType request)
                  (reqRules request) organizationID userID
                  (reqEnvironment request) ∧
       reqName request ≠ EmptyString ∧
       reqType request ∈ ["boolean"; "json"; "string"; "number"] ∧
       reqDefaultValue request ≠ EmptyString ∧
       reqEnvironment request ≠ EmptyString) ∧
  (∀ code body, r.2 = Sent code body →
     code = StatusCreated ∧
     ∃ featureFlagID userID,
       r.1 = [FlagInserted body; TimelineInserted featureFlagID;
              TimelineAppended featureFlagID userID Created]) ∧
  (∀ code m, r.2 = Refused code m → r.1 ≠ [] →
     (code = StatusBadRequest ∧ timelineInsertOne = false) ∨
     (code = StatusInternalServerError ∧ timelineInsertOne = true ∧
      timelineUpdateOne o = false)).
Proof.
  intros r. subst r. unfold PostFeatureFlag.
  destruct (userFromContext o) as [u|];
    [|split; [intros ? H; by apply elem_of_nil in H|by split]].
  destruct (organizationFromContext o) as [g|];
    [|split; [intros ? H; by apply elem_of_nil in H|by split]].
  destruct (organizationFound o);
    [|split; [intros ? H; by apply elem_of_nil in H|by split]].
  destruct (permission o);
    [|split; [intros ? H; by apply elem_of_nil in H|by split]].
  destruct post as [request|];
    [|split; [intros ? H; by apply elem_of_nil in H|by split]].
  destruct (validatePost ruleValid request) eqn:Hv;
    [|split; [intros ? H; by apply elem_of_nil in H|by split]].
  apply validatePost_spec in Hv as (Hn & Ht & Hd & _ & He).
  destruct insertOne as [i|];
    [|split; [intros ? H; by apply elem_of_nil in H|by split]].
  split; [|split].
  - intros record Hin. exists request, u, g.
    assert (record = NewFeatureFlagRecord (reqName request)
              (reqDefaultValue request) (reqType request) (reqRules request)
              g u (reqEnvironment request)) as ->; [|done].
    destruct timelineInsertOne, (timelineUpdateOne o); simpl in Hin;
      repeat (apply elem_of_cons in Hin as [Hin|Hin]; simplify_eq;
              try done);
      by apply elem_of_nil in Hin.
  - intros code body Hs.
    destruct timelineInsertOne, (timelineUpdateOne o); simplify_eq/=.
    split; [done|]. by exists i, u.
  - intros code m Hs Hne.
    destruct timelineInsertOne, (timelineUpdateOne o); simplify_eq/=; eauto.
Qed.

Lemma post_feature_flag_effects_witness :
  let build := λ (name value type : string) (rules : list Rule)
                 (organizationID userID : ObjectID) (environment : string),
                 mkFeatureFlagRecord 0 organizationID name 1
                   [mkEnvironment environment false] [] in
  let o := mkOutcomes (Some 9%N) (Some 200%N) true true None None true true in
  let request := mkPostFeatureFlagRequest "dark-mode" "integer" "off" [] "prod" in
  (PostFeatureFlag build (λ _, true) o (Some request) (Some 100%N) true).2
  = Refused 400 BadRequestError ∧
  ¬ ∃ record,
      FlagInserted record
      ∈ (PostFeatureFlag build (λ _, true) o (Some request) (Some 100%N) true).1.
Proof.
  intros build o request. split; [reflexivity|]. intros (record & Hin).
  destruct (proj1 (post_feature_flag_effects build (λ _, true) o (Some request)
                     (Some 100%N) true) record Hin)
    as (request' & _ & _ & Hreq & _ & _ & Ht & _).
  injection Hreq as <-. simpl in Ht.
  repeat (apply elem_of_cons in Ht as [Ht|Ht]; [discriminate Ht|]).
  by apply elem_of_nil in Ht.
Defined.

(** X24. PatchFeatureFlag answers with the new revision exactly when the
    caller is authorised, the flag id and the body are well formed and
    both writes succeed: it neither validates the body nor looks the flag
    up. The revision answered is the one pushed, at the end of the
    revisions, which are otherwise left as they were. *)
Theorem patch_feature_flag_pushes
    (NewRevisionRecord : string → list Rule → ObjectID → Revision)
    (o : Outcomes) (patch : option PatchFeatureFlagRequest)
    (f : FeatureFlagRecord) :
  let r := PatchFeatureFlag NewRevisionRecord o patch in
  ((∃ code body, r.2 = Sent code body) ↔
   is_Some (userFromContext o) ∧ is_Some (organizationFromContext o) ∧
   organizationFound o = true ∧ permission o = true ∧
   is_Some (featureFlagIDParam o) ∧ is_Some patch ∧
   updateOne o = true ∧ timelineUpdateOne o = true) ∧
  (∀ code body, r.2 = Sent code body →
     code = StatusOK ∧
     (∃ request userID,
        patch = Some request ∧ userFromContext o = Some userID ∧
        body = NewRevisionRecord (patchDefaultValue request)
                 (patchRules request) userID) ∧
     Revisions (foldl applyEffect f r.1) = Revisions f ++ [body]).
Proof.
  intros r. subst r. unfold PatchFeatureFlag. rewrite !is_Some_alt.
  destruct (userFromContext o) as [u|];
    [|split; [split; [by intros (c & b & H)|tauto]|by intros c b H]].
  destruct (organizationFromContext o) as [g|];
    [|split; [split; [by intros (c & b & H)|tauto]|by intros c b H]].
  destruct (organizationFound o);
    [|split; [split; [by intros (c & b & H)|intros H; by destruct_and?]
             |by intros c b H]].
  destruct (permission o);
    [|split; [split; [by intros (c & b & H)|intros H; by destruct_and?]
             |by intros c b H]].
  destruct (featureFlagIDParam o) as [i|];
    [|split; [split; [by intros (c & b & H)|tauto]|by intros c b H]].
  destruct patch as [request|];
    [|split; [split; [by intros (c & b & H)|tauto]|by intros c b H]].
  destruct (updateOne o);
    [|split; [split; [by intros (c & b & H)|intros H; by destruct_and?]
             |by intros c b H]].
  destruct (timelineUpdateOne o);
    [|split; [split; [by intros (c & b & H)|intros H; by destruct_and?]
             |by intros c b H]].
  split; [split; [done|by eexists _, _]|].
  intros c b [= <- <-]. split; [done|]. split; [by eexists _, _|done].
Qed.

Lemma patch_feature_flag_pushes_witness :
  let f := Sample.flag 2 [Sample.revision 1 Live 0] in
  let build := λ (value : string) (rules : list Rule) (userID : ObjectID),
                 mkRevision 2 userID Draft value rules NilObjectID in
  let r := PatchFeatureFlag build (Sample.answers f)
             (Some (mkPatchFeatureFlagRequest EmptyString [])) in
  r.2 = Sent 200 (build EmptyString [] 9%N) ∧
  Revisions (foldl applyEffect f r.1)
  = [Sample.revision 1 Live 0; build EmptyString [] 9%N].
Proof.
  intros f build r.
  destruct (proj2 (patch_feature_flag_pushes build (Sample.answers f)
                     (Some (mkPatchFeatureFlagRequest EmptyString [])) f)
              200 (build EmptyString [] 9%N) eq_refl) as (_ & _ & H).
  split; [reflexivity | exact H].
Defined.

(** ** PatchUser *)

(** X25. PatchUser looks at the body before it looks at the caller: a
    body that cannot be bound, or whose first or last name is empty, is
    refused with 400 and nothing is written, whether or not the caller is
    authenticated and whether or not the user exists. *)
Theorem patch_user_validates_first (bound : option UserPatchRequest)
    (user : ContextError + ObjectID) (found : option UserRecord)
    (updated : option ObjectID) :
  (∀ request, bound = Some request →
     patchFirstName request = EmptyString ∨
     patchLastName request = EmptyString) →
  PatchUser bound user found updated
  = (None, UserRefused StatusBadRequest (Common BadRequestError)).
Proof.
  intros Hbad. unfold PatchUser. destruct bound as [request|]; [|done].
  destruct (validateUserPatch request) eqn:Hv; [|done].
  unfold validateUserPatch in Hv.
  apply andb_true_iff in Hv as [H1 H2].
  apply required_spec in H1. apply required_spec in H2.
  destruct (Hbad request eq_refl); done.
Qed.

Lemma patch_user_validates_first_witness :
  PatchUser (Some (mkUserPatchRequest "fizi" EmptyString))
    (inl ErrNotAuthenticated) None None
  = (None, UserRefused 400 (Common BadRequestError)).
Proof.
  apply patch_user_validates_first. intros request [= <-]. by right.
Defined.

(** X26. PatchUser writes exactly when it answers 200. The write sets the
    first and last name of the authenticated user to the names of the
    request, which are not empty, and leaves the email and the password
    alone; the answer carries the id returned by the update, the stored
    email and the new names. *)
Theorem patch_user_writes_iff_ok (bound : option UserPatchRequest)
    (user : ContextError + ObjectID) (found : option UserRecord)
    (updated : option ObjectID) :
  let r := PatchUser bound user found updated in
  (is_Some r.1 ↔ ∃ code body, r.2 = UserSent code body) ∧
  (∀ code body, r.2 = UserSent code body →
     code = StatusOK ∧
     ∃ request userID ur,
       bound = Some request ∧ user = inr userID ∧ found = Some ur ∧
       updated = Some (respID body) ∧
       patchFirstName request ≠ EmptyString ∧
       patchLastName request ≠ EmptyString ∧
       body = mkUserPatchResponse (respID body) (Email ur)
                (patchFirstName request) (patchLastName request) ∧
       r.1 = Some (mkUserUpdate userID (patchFirstName request)
                     (patchLastName request)) ∧
       applyUserUpdate ur r.1
       = mkUserRecord (Email ur) (Password ur) (patchFirstName request)
           (patchLastName request)) ∧
  (∀ code m, r.2 = UserRefused code m →
     (code, m) ∈ [(StatusBadRequest, Common BadRequestError);
                  (StatusUnauthorized, Common UnauthorizedError);
                  (StatusNotFound, NotFoundError);
                  (StatusInternalServerError, Common InternalServerError)]).
Proof.
  intros r. subst r. unfold PatchUser.
  assert (Hrefused : ∀ code m,
    (code, m) ∈ [(StatusBadRequest, Common BadRequestError);
                 (StatusUnauthorized, Common UnauthorizedError);
                 (StatusNotFound, NotFoundError);
                 (StatusInternalServerError, Common InternalServerError)] →
    let r := (None : option UserUpdate, UserRefused code m) in
    (is_Some r.1 ↔ ∃ code body, r.2 = UserSent code body) ∧
    (∀ code' body, r.2 = UserSent code' body →
       code' = StatusOK ∧
       ∃ request userID ur,
         bound = Some request ∧ user = inr userID ∧ found = Some ur ∧
         updated = Some (respID body) ∧
         patchFirstName request ≠ EmptyString ∧
         patchLastName request ≠ EmptyString ∧
         body = mkUserPatchResponse (respID body) (Email ur)
                  (patchFirstName request) (patchLastName request) ∧
         r.1 = Some (mkUserUpdate userID (patchFirstName request)
                       (patchLastName request)) ∧
         applyUserUpdate ur r.1
         = mkUserRecord (Email ur) (Password ur) (patchFirstName request)
             (patchLastName request)) ∧
    (∀ code' m', r.2 = UserRefused code' m' →
       (code', m') ∈ [(StatusBadRequest, Common BadRequestError);
                      (StatusUnauthorized, Common UnauthorizedError);
                      (StatusNotFound, NotFoundError);
                      (StatusInternalServerError,
                       Common InternalServerError)])).
  { intros code m Hin. simpl. split; [|split].
    - rewrite is_Some_alt. split; [done|]. by intros (c & b & H).
    - by intros c b H.
    - by intros c m' [= <- <-]. }
  destruct bound as [request|]; [|apply Hrefused, list_elem_of_here].
  destruct (validateUserPatch request) eqn:Hv;
    [|apply Hrefused, list_elem_of_here].
  unfold validateUserPatch in Hv. apply andb_true_iff in Hv as [H1 H2].
  apply required_spec in H1. apply required_spec in H2.
  destruct user as [[|]|userID].
  - apply Hrefused, list_elem_of_further, list_elem_of_here.
  - apply Hrefused. do 3 apply list_elem_of_further. apply list_elem_of_here.
  - destruct found as [ur|].
    2: { apply Hrefused. do 2 apply list_elem_of_further.
         apply list_elem_of_here. }
    destruct updated as [objectID|].
    2: { apply Hrefused. do 3 apply list_elem_of_further.
         apply list_elem_of_here. }
    simpl. split; [|split].
    + split; [intros _; by eexists _, _ | intros _; by eexists].
    + intros c b [= <- <-]. split; [done|].
      exists request, userID, ur. by repeat split.
    + by intros c m H.
Qed.

Lemma patch_user_writes_iff_ok_witness :
  let ur := mkUserRecord "fizi@gmail.com" "123123" "fizi" "valores" in
  let r := PatchUser (Some (mkUserPatchRequest "new" "name")) (inr 9%N)
             (Some ur) (Some 9%N) in
  is_Some r.1 ∧
  applyUserUpdate ur r.1 = mkUserRecord "fizi@gmail.com" "123123" "new" "name".
Proof.
  intros ur r.
  destruct (patch_user_writes_iff_ok (Some (mkUserPatchRequest "new" "name"))
              (inr 9%N) (Some ur) (Some 9%N)) as (H1 & H2 & _).
  split.
  - apply H1. by eexists _, _.
  - destruct (H2 200 (mkUserPatchResponse 9 "fizi@gmail.com" "new" "name")
                eq_refl)
      as (_ & request & userID & ur' & Hb & _ & Hf & _ & _ & _ & _ & _ & Hu).
    injection Hb as <-. injection Hf as <-. exact Hu.
Defined.
